(** * gitlab-user-domains: a shallow embedding of [main.py]

    The script authenticates against a GitLab instance, pages through the
    user list, extracts the host part of every e-mail address with the
    regular expression [@([a-zA-Z0-9.-]+)], and writes two text files.

    Python [str] values are modelled as byte strings ([String.string], the
    UTF-8 encoding): every character the pattern can capture is ASCII, and
    bytewise comparison of UTF-8 agrees with code-point comparison.  The
    domain set is a [gset string], files are a [gmap] from path to content,
    and exceptions, exits, API calls and log records are threaded through a
    small state-and-exception monad. *)

From Stdlib Require Import ZArith NArith Ascii String.
From stdpp Require Import base option list sets gmap strings sorting.

(** ** Characters and the host pattern *)

Module Regex.

(** The character class [[a-zA-Z0-9.-]]: without flags, Python's [re]
    matches exactly these ASCII characters. *)
Definition in_class (c : ascii) : bool :=
  let n := N_of_ascii c in
  ((97 <=? n) && (n <=? 122) || (65 <=? n) && (n <=? 90)
   || (48 <=? n) && (n <=? 57) || (n =? 46) || (n =? 45))%N.

Definition is_at (c : ascii) : bool := (N_of_ascii c =? 64)%N.

(** The greedy [[...]+] part: the longest prefix of class characters. *)
Fixpoint span_class (s : string) : string :=
  match s with
  | EmptyString => EmptyString
  | String c s' => if in_class c then String c (span_class s') else EmptyString
  end.

(** [domain_pattern.match] anchored at the head of [s]: an [@] and then at
    least one class character; the result is [group(1)]. *)
Definition match_here (s : string) : option string :=
  match s with
  | String c s' =>
      if is_at c then
        match span_class s' with
        | EmptyString => None
        | h => Some h
        end
      else None
  | EmptyString => None
  end.

(** [domain_pattern.search(s)]: the match at the leftmost position where
    the pattern matches; the result is [match.group(1)]. *)
Fixpoint search (s : string) : option string :=
  match match_here s with
  | Some h => Some h
  | None =>
      match s with
      | EmptyString => None
      | String _ s' => search s'
      end
  end.

End Regex.

(** [str.lower()] on one byte: only [A]-[Z] change.  It is applied to
    captured hosts only, which consist of class characters. *)
Definition lower_ascii (c : ascii) : ascii :=
  let n := N_of_ascii c in
  if ((65 <=? n) && (n <=? 90))%N then ascii_of_N (n + 32) else c.

Fixpoint lower (s : string) : string :=
  match s with
  | EmptyString => EmptyString
  | String c s' => String (lower_ascii c) (lower s')
  end.

(** ** Users *)

(** A user record of the API: [username] and an optional [email]. *)
Record user := User { username : string; email : option string }.

(** Truthiness of [user.email]: [None] and the empty string are falsy.
    The result is the e-mail when it is truthy. *)
Definition truthy_email (u : user) : option string :=
  match email u with
  | Some EmptyString => None
  | Some e => Some e
  | None => None
  end.

Definition has_email (u : user) : bool :=
  match truthy_email u with Some _ => true | None => false end.

(** The f-string ["{user.username} - {user.email}\n"], for a user whose
    e-mail is the string [e]. *)
Definition nl : string := String (ascii_of_N 10) EmptyString.

Definition user_line (u : user) (e : string) : string :=
  username u +:+ " - " +:+ e +:+ nl.

(** The set comprehension of [extract_domains]: users are visited in list
    order and every captured, lower-cased host is added to the set. *)
Definition domain_of (u : user) : option string :=
  match truthy_email u with
  | Some e =>
      match Regex.search e with
      | Some h => Some (lower h)
      | None => None
      end
  | None => None
  end.

Definition set_add (acc : gset string) (o : option string) : gset string :=
  match o with
  | Some d => {[ d ]} ∪ acc
  | None => acc
  end.

Definition domain_set (users : list user) : gset string :=
  foldl (λ acc u, set_add acc (domain_of u)) ∅ users.

(** ** Exceptions, the world and the monad *)

(** The exception classes the script can see.  [SystemExit] derives from
    [BaseException] only; [requests]' [RequestException] derives from
    [IOError]; [GitlabAuthenticationError] derives from [Exception]. *)
Inductive exn :=
| SystemExit (code : Z)
| GitlabAuthenticationError
| RequestException
| IOError
| OtherException.

Definition isinstance_Exception (e : exn) : bool :=
  match e with SystemExit _ => false | _ => true end.

Definition isinstance_IOError (e : exn) : bool :=
  match e with IOError | RequestException => true | _ => false end.

Definition isinstance_RequestException (e : exn) : bool :=
  match e with RequestException => true | _ => false end.

Definition isinstance_GitlabAuthenticationError (e : exn) : bool :=
  match e with GitlabAuthenticationError => true | _ => false end.

(** Calls that reach the API client. *)
Inductive api_call :=
| Gitlab_new (url token : option string)
| Gitlab_auth
| Users_list (per_page page : nat).

(** The records handed to [logging]. *)
Inductive log_record :=
| Log_missing_config
| Log_connected
| Log_auth_error
| Log_connection_error
| Log_fetching
| Log_total_users (n : nat)
| Log_skipped (n : nat)
| Log_write_error
| Log_unique_domains (n : nat)
| Log_domains_saved
| Log_users_saved
| Log_completed
| Log_unexpected (e : exn).

(** What the run can observe and change: the files of the working
    directory, the API calls issued so far and the log. *)
Record world := World {
  files : gmap string string;
  calls : list api_call;
  logs : list log_record
}.

(** The behaviour of the outside: the server and the file system.  A write
    of [data] to [path], whose content since it was opened is [old], either
    succeeds or fails with an exception after the system has accepted some
    number of characters of [old] followed by [data]: the text goes through
    a buffer, so a failure can cut anywhere in what was written since the
    file was opened. *)
Record outside := Outside {
  auth_outcome : option exn;
  users_page : nat → nat → list user + exn;
  open_outcome : string → option exn;
  write_outcome : string → string → string → option (exn * nat)
}.

Inductive result (A : Type) :=
| Ok (a : A)
| Raise (e : exn)
| Diverge.
Arguments Ok {A} a.
Arguments Raise {A} e.
Arguments Diverge {A}.

Definition M (A : Type) : Type := world → result A * world.

#[global] Instance M_ret : MRet M := λ A a w, (Ok a, w).

#[global] Instance M_bind : MBind M := λ A B f m w,
  match m w with
  | (Ok a, w') => f a w'
  | (Raise e, w') => (Raise e, w')
  | (Diverge, w') => (Diverge, w')
  end.

Definition raise {A} (e : exn) : M A := λ w, (Raise e, w).

Definition diverge {A} : M A := λ w, (Diverge, w).

(** [try: body except ...: handler]: [handlers e] is the body of the first
    clause whose class [e] is an instance of, if there is one. *)
Definition try_except {A} (body : M A) (handlers : exn → option (M A)) : M A :=
  λ w,
    match body w with
    | (Raise e, w') =>
        match handlers e with
        | Some h => h w'
        | None => (Raise e, w')
        end
    | r => r
    end.

Definition sys_exit {A} (code : Z) : M A := raise (SystemExit code).

Definition log (r : log_record) : M unit :=
  λ w, (Ok tt, World (files w) (calls w) (logs w ++ [r])).

Definition call (c : api_call) : M unit :=
  λ w, (Ok tt, World (files w) (calls w ++ [c]) (logs w)).

(** The exit status of the process: 0 on normal completion, the code of an
    uncaught [SystemExit], 1 for any other uncaught exception. *)
Definition exit_status {A} (r : result A) : option Z :=
  match r with
  | Ok _ => Some 0%Z
  | Raise (SystemExit c) => Some c
  | Raise _ => Some 1%Z
  | Diverge => None
  end.

Definition USERS_FILE : string := "all_users_with_domains.txt".
Definition DOMAINS_FILE : string := "unique_domains.txt".

(** [sorted(domains)]: ascending in the lexicographic order on strings by
    character code ([String.le]), as Python compares [str] values. *)
Definition sorted (domains : gset string) : list string :=
  merge_sort String.le (elements domains).

Definition str_lt : relation string := strict String.le.

(** The first [n] characters of [s]. *)
Fixpoint string_take (n : nat) (s : string) : string :=
  match n, s with
  | S n', String c s' => String c (string_take n' s')
  | _, _ => EmptyString
  end.

(** [sep.join(l)] *)
Definition join (sep : string) (l : list string) : string := String.concat sep l.

(** The command line and the environment, after [load_dotenv]. *)
Record invocation := Invocation {
  arg_gitlab_url : option string;
  arg_token : option string;
  env_GITLAB_URL : option string;
  env_PRIVATE_TOKEN : option string
}.

Definition truthy (o : option string) : bool :=
  match o with
  | Some EmptyString => false
  | Some _ => true
  | None => false
  end.

(** Python's [a or b]. *)
Definition py_or (a b : option string) : option string :=
  if truthy a then a else b.

(** The session handle returned by [gitlab.Gitlab(...)]. *)
Record session := Session {
  session_url : option string;
  session_token : option string
}.

Section program.
Context (env : outside).

(** [path.open("w")]: creates or truncates the file. *)
Definition open_w (path : string) : M unit :=
  λ w,
    match open_outcome env path with
    | Some e => (Raise e, w)
    | None => (Ok tt, World (<[path := EmptyString]> (files w)) (calls w) (logs w))
    end.

(** [f.write(data)] on a file opened by [open_w]: on success the file
    holds [data] after what it held; on failure it holds the characters the
    system accepted and the exception is raised. *)
Definition write (path data : string) : M unit :=
  λ w,
    let old := default EmptyString (files w !! path) in
    match write_outcome env path old data with
    | Some (e, accepted) =>
        (Raise e,
         World (<[path := string_take accepted (old +:+ data)]> (files w))
               (calls w) (logs w))
    | None => (Ok tt, World (<[path := old +:+ data]> (files w)) (calls w) (logs w))
    end.

(** [gl.users.list(per_page=..., page=...)] *)
Definition users_list (gl : session) (per_page page : nat) : M (list user) :=
  call (Users_list per_page page);;
  match users_page env per_page page with
  | inl batch => mret batch
  | inr e => raise e
  end.

Definition connect_gitlab (GITLAB_URL PRIVATE_TOKEN : option string) : M session :=
  try_except
    (call (Gitlab_new GITLAB_URL PRIVATE_TOKEN);;
     call Gitlab_auth;;
     match auth_outcome env with
     | Some e => raise e
     | None => log Log_connected;; mret (Session GITLAB_URL PRIVATE_TOKEN)
     end)
    (λ e,
      if isinstance_GitlabAuthenticationError e
      then Some (log Log_auth_error;; sys_exit 2)
      else if isinstance_RequestException e
      then Some (log Log_connection_error;; sys_exit 3)
      else None).

(** The [while True] loop of [get_users]; [fuel] bounds the number of
    iterations and [Diverge] is the result when it runs out. *)
Fixpoint get_users_loop (gl : session) (fuel : nat) (page : nat)
    (users : list user) : M (list user) :=
  match fuel with
  | O => diverge
  | S fuel' =>
      batch ← users_list gl 100 page;
      match batch with
      | [] => mret users
      | _ :: _ => get_users_loop gl fuel' (page + 1) (users ++ batch)
      end
  end.

Definition get_users (gl : session) (fuel : nat) : M (list user) :=
  log Log_fetching;;
  users ← get_users_loop gl fuel 1 [];
  log (Log_total_users (length users));;
  mret users.

(** The [for user in users] loop of [extract_domains]. *)
Fixpoint write_users (users : list user) (skipped_users : nat) : M nat :=
  match users with
  | [] => mret skipped_users
  | u :: rest =>
      match truthy_email u with
      | Some e => write USERS_FILE (user_line u e);; write_users rest skipped_users
      | None => write_users rest (skipped_users + 1)
      end
  end.

Definition extract_domains (users : list user) : M (gset string) :=
  r ← (open_w USERS_FILE;;
       let domains := domain_set users in
       skipped_users ← write_users users 0;
       mret (domains, skipped_users));
  log (Log_skipped r.2);;
  mret r.1.

Definition save_domains (domains : gset string) : M unit :=
  try_except
    (open_w DOMAINS_FILE;;
     write DOMAINS_FILE (join nl (sorted domains) +:+ nl))
    (λ e,
      if isinstance_IOError e
      then Some (log Log_write_error;; sys_exit 6)
      else None);;
  log (Log_unique_domains (size domains));;
  log Log_domains_saved.

Definition main (GITLAB_URL PRIVATE_TOKEN : option string) (fuel : nat) : M unit :=
  try_except
    (gl ← connect_gitlab GITLAB_URL PRIVATE_TOKEN;
     users ← get_users gl fuel;
     unique_domains ← extract_domains users;
     save_domains unique_domains;;
     log Log_users_saved;;
     log Log_completed)
    (λ e,
      if isinstance_Exception e
      then Some (log (Log_unexpected e);; sys_exit 7)
      else None).

(** The module body followed by the call of [main]. *)
Definition script (inv : invocation) (fuel : nat) : M unit :=
  let GITLAB_URL := py_or (arg_gitlab_url inv) (env_GITLAB_URL inv) in
  let PRIVATE_TOKEN := py_or (arg_token inv) (env_PRIVATE_TOKEN inv) in
  if negb (truthy GITLAB_URL) || negb (truthy PRIVATE_TOKEN)
  then log Log_missing_config;; sys_exit 1
  else main GITLAB_URL PRIVATE_TOKEN fuel.

End program.

(** ** Reference definitions that follow the specification's wording *)

Module Spec.

(** "Text following the first [@], consisting of letters, digits, dots and
    hyphens": the scan stops at the first [@] whatever follows it. *)
Fixpoint host_after_first_at (s : string) : option string :=
  match s with
  | EmptyString => None
  | String c s' =>
      if Regex.is_at c then
        match Regex.span_class s' with
        | EmptyString => None
        | h => Some h
        end
      else host_after_first_at s'
  end.

Definition first_at_domain_of (u : user) : option string :=
  match truthy_email u with
  | Some e =>
      match host_after_first_at e with
      | Some h => Some (lower h)
      | None => None
      end
  | None => None
  end.

(** The set of lower-cased hosts of the users with a matching e-mail. *)
Definition domain_set (users : list user) : gset string :=
  list_to_set (omap first_at_domain_of users).

(** The host of an e-mail as the pattern finds it, in terms of the text
    alone: the letters, digits, dots and hyphens are the characters of
    [host_alphabet]; the match begins at the first place of the e-mail where
    an [@] is followed by such a character, and the host is the longest run
    of such characters after that [@]. *)
Definition host_alphabet : string :=
  "abcdefghijklmnopqrstuvwxyzABCDEFGHIJKLMNOPQRSTUVWXYZ0123456789.-".

Fixpoint occurs (c : ascii) (s : string) : bool :=
  match s with
  | EmptyString => false
  | String d s' => Ascii.eqb c d || occurs c s'
  end.

Definition is_host_char (c : ascii) : bool := occurs c host_alphabet.

Fixpoint host_prefix (s : string) : string :=
  match s with
  | EmptyString => EmptyString
  | String c s' => if is_host_char c then String c (host_prefix s') else EmptyString
  end.

Fixpoint suffixes (s : string) : list string :=
  s :: match s with
       | EmptyString => []
       | String _ s' => suffixes s'
       end.

Definition begins_host (s : string) : bool :=
  match s with
  | String a (String d _) => Ascii.eqb a "@" && is_host_char d
  | _ => false
  end.

Definition pattern_host (e : string) : option string :=
  match List.find begins_host (suffixes e) with
  | Some (String _ rest) => Some (host_prefix rest)
  | _ => None
  end.

(** Lower-casing by the table of the 26 letters. *)
Fixpoint translate (c : ascii) (from to : string) : ascii :=
  match from, to with
  | String f from', String t to' =>
      if Ascii.eqb c f then t else translate c from' to'
  | _, _ => c
  end.

Definition lower_case_char (c : ascii) : ascii :=
  translate c "ABCDEFGHIJKLMNOPQRSTUVWXYZ" "abcdefghijklmnopqrstuvwxyz".

Fixpoint lower_case (s : string) : string :=
  match s with
  | EmptyString => EmptyString
  | String c s' => String (lower_case_char c) (lower_case s')
  end.

(** The domain a user contributes: the lower-cased host of a non-empty
    e-mail that matches. *)
Definition domain (u : user) : option string :=
  match email u with
  | Some (String c e) => lower_case <$> pattern_host (String c e)
  | _ => None
  end.

Definition domains (users : list user) : gset string :=
  list_to_set (omap domain users).

(** The line ["<username> - <email>"] with its newline. *)
Definition line (username email : string) : string :=
  username +:+ " - " +:+ email +:+ String "010" EmptyString.

(** The single-pass reference: one traversal in sequence order that, for
    each user with a non-empty e-mail, adds the lower-cased host to the set
    when the e-mail matches and writes the line of the user, and that counts
    the other users. *)
Fixpoint single_pass (env : outside) (users : list user)
    (domains : gset string) (skipped_users : nat) : M (gset string * nat) :=
  match users with
  | [] => mret (domains, skipped_users)
  | u :: rest =>
      match email u with
      | Some (String c e) =>
          let domains' :=
            match pattern_host (String c e) with
            | Some h => {[ lower_case h ]} ∪ domains
            | None => domains
            end in
          write env USERS_FILE (line (username u) (String c e));;
          single_pass env rest domains' skipped_users
      | _ => single_pass env rest domains (skipped_users + 1)
      end
  end.

(** [extract_domains] around the single traversal. *)
Definition extract_domains (env : outside) (users : list user) : M (gset string) :=
  r ← (open_w env USERS_FILE;; single_pass env users ∅ 0);
  log (Log_skipped r.2);;
  mret r.1.

End Spec.

(** ** Vocabulary of the statements *)

(** What the pattern captures, stated on the shape of the e-mail: [e] is
    [pre @ h rest] where [h] is a non-empty run of class characters that
    [rest] does not continue, and no [@] inside [pre] is followed by a class
    character. *)
Definition not_class_head (s : string) : Prop :=
  match s with
  | EmptyString => True
  | String c _ => Regex.in_class c = false
  end.

Fixpoint all_class (s : string) : Prop :=
  match s with
  | EmptyString => True
  | String c s' => Regex.in_class c = true ∧ all_class s'
  end.

Definition at_sign : ascii := ascii_of_N 64.

Definition captures (e h : string) : Prop :=
  ∃ pre rest,
    e = pre +:+ String at_sign (h +:+ rest) ∧
    h ≠ EmptyString ∧ all_class h ∧ not_class_head rest ∧
    ∀ p q, pre = p +:+ String at_sign q → not_class_head q.

(** The text of the per-user file: one line per user with an e-mail. *)
Fixpoint users_text (users : list user) : string :=
  match users with
  | [] => EmptyString
  | u :: rest =>
      match truthy_email u with
      | Some e => user_line u e +:+ users_text rest
      | None => users_text rest
      end
  end.

(** The users with a non-empty e-mail, and their lines. *)
Definition email_nonempty (u : user) : Prop :=
  ∃ e, email u = Some e ∧ e ≠ EmptyString.

#[global] Instance email_nonempty_dec u : Decision (email_nonempty u).
Proof.
  unfold email_nonempty. destruct (email u) as [e|].
  - destruct (decide (e = EmptyString)) as [->|Hne].
    + right. intros (e' & [= <-] & H). by apply H.
    + left. by exists e.
  - right. by intros (e' & [=] & _).
Defined.

Definition line_of (u : user) : string :=
  username u +:+ " - " +:+ default EmptyString (email u) +:+ nl.

(** The number of users the loop skips. *)
Definition count_falsy (users : list user) : nat :=
  length (filter (λ u, ¬ email_nonempty u) users).

(** The lines of a text: each newline ends a line; characters after the
    last newline form a last line. *)
Fixpoint lines_aux (cur : string) (s : string) : list string :=
  match s with
  | EmptyString =>
      match cur with
      | EmptyString => []
      | _ => [cur]
      end
  | String c s' =>
      if Ascii.eqb c (ascii_of_N 10) then cur :: lines_aux EmptyString s'
      else lines_aux (cur +:+ String c EmptyString) s'
  end.

Definition lines_of (s : string) : list string := lines_aux EmptyString s.

Fixpoint nl_free (s : string) : Prop :=
  match s with
  | EmptyString => True
  | String c s' => c ≠ ascii_of_N 10 ∧ nl_free s'
  end.

(** A file system on which opening and writing [path] succeed. *)
Definition fs_ok (env : outside) (path : string) : Prop :=
  open_outcome env path = None ∧
  ∀ old data, write_outcome env path old data = None.

(** A paginated source serving the given batches as pages 1, 2, ... and
    empty pages after them. *)
Definition source_of_batches (batches : list (list user))
  : nat → nat → list user + exn :=
  λ _ page,
    match page with
    | O => inl []
    | S i => inl (default [] (batches !! i))
    end.

(** An outside on which nothing fails, serving the given batches. *)
Definition calm (batches : list (list user)) : outside :=
  Outside None (source_of_batches batches) (λ _, None) (λ _ _ _, None).

(** Outsides with one fault: the server rejects the credential, the server
    cannot be reached, the domains file cannot be opened for writing. *)
Definition rejecting : outside :=
  Outside (Some GitlabAuthenticationError) (source_of_batches [])
          (λ _, None) (λ _ _ _, None).

Definition unreachable : outside :=
  Outside (Some RequestException) (source_of_batches [])
          (λ _, None) (λ _ _ _, None).

Definition read_only_domains (batches : list (list user)) : outside :=
  Outside None (source_of_batches batches)
          (λ path, if decide (path = DOMAINS_FILE) then Some IOError else None)
          (λ _ _ _, None).

Definition empty_world : world := World ∅ [] [].

(** Users with the e-mails of the specification's example. *)
Definition example_emails (n1 n2 n3 : string) : list user :=
  [User n1 (Some "a@Example.com"%string);
   User n2 (Some "b@EXAMPLE.COM"%string);
   User n3 (Some "c@other.org"%string)].

Definition example_users : list user := example_emails "a" "b" "c".

Definition anonymous : user := User "u" None.

(** ** Vocabulary of the further properties *)

(** The characters of a stored domain: lower-case letters, digits, dot and
    hyphen. *)
Definition is_domain_char (c : ascii) : bool :=
  let n := N_of_ascii c in
  ((97 <=? n) && (n <=? 122) || (48 <=? n) && (n <=? 57)
   || (n =? 46) || (n =? 45))%N.

Fixpoint domain_chars (s : string) : Prop :=
  match s with
  | EmptyString => True
  | String c s' => is_domain_char c = true ∧ domain_chars s'
  end.

(** The text of the per-user file in terms of the users alone: the lines
    of the users with a non-empty e-mail, in order. *)
Definition lines_text (users : list user) : string :=
  String.concat EmptyString (line_of <$> filter email_nonempty users).

(** [l] lists the set [D] in strictly ascending order. *)
Definition sorted_listing (D : gset string) (l : list string) : Prop :=
  StronglySorted str_lt l ∧ ∀ x, x ∈ l ↔ x ∈ D.

(** [p] is a beginning of [s]. *)
Definition prefix_of (p s : string) : Prop := ∃ rest, s = p +:+ rest.

(** The two output files. *)
Definition output_file (path : string) : Prop :=
  path = USERS_FILE ∨ path = DOMAINS_FILE.

(** Relations between the world before and after a computation: the files
    other than the output files are as before; the API calls are as before;
    the files are as before; the API calls were only appended to. *)
Definition same_other_files (w w' : world) : Prop :=
  ∀ path, ¬ output_file path → files w' !! path = files w !! path.

Definition same_calls (w w' : world) : Prop := calls w' = calls w.

Definition same_files (w w' : world) : Prop := files w' = files w.

Definition more_calls (w w' : world) : Prop := ∃ l, calls w' = calls w ++ l.

(** [m] relates every world it starts from to the world it ends in,
    whatever its result. *)
Definition keeps {A} (R : relation world) (m : M A) : Prop :=
  ∀ w, R w (m w).2.

(** An outside that raises instances of [Exception] only (it never raises
    [SystemExit] itself). *)
Definition raises_exceptions_only (env : outside) : Prop :=
  (∀ e, auth_outcome env = Some e → isinstance_Exception e = true) ∧
  (∀ per_page page e,
     users_page env per_page page = inr e → isinstance_Exception e = true) ∧
  (∀ path e, open_outcome env path = Some e → isinstance_Exception e = true) ∧
  (∀ path old data e accepted,
     write_outcome env path old data = Some (e, accepted) →
     isinstance_Exception e = true).

(** A raised exception of [m] is an instance of [Exception] or a
    [SystemExit] with a code in [S]. *)
Definition exits_within {A} (S : Z → Prop) (m : M A) : Prop :=
  ∀ w e w',
    m w = (Raise e, w') →
    isinstance_Exception e = true ∨ ∃ c, e = SystemExit c ∧ S c.

(** [v] is the value [flag or variable] evaluates to, and it is truthy: a
    non-empty flag, or else a non-empty environment variable. *)
Definition effective (flag variable : option string) (v : string) : Prop :=
  v ≠ EmptyString ∧
  (flag = Some v ∨
   ((flag = None ∨ flag = Some EmptyString) ∧ variable = Some v)).

(** The source of [env] serves the batches [pages 1], [pages 2], ... and
    page [n] is its first empty page; [served pages n] are the records
    before it. *)
Definition serves (env : outside) (pages : nat → list user) (n : nat) : Prop :=
  (∀ p, users_page env 100 p = inl (pages p)) ∧
  1 ≤ n ∧ pages n = [] ∧ ∀ p, 1 ≤ p < n → pages p ≠ [].

Definition served (pages : nat → list user) (n : nat) : list user :=
  concat (pages <$> seq 1 (n - 1)).

(** The pages of [source_of_batches]. *)
Definition batch_pages (batches : list (list user)) (p : nat) : list user :=
  match p with
  | O => []
  | S i => default [] (batches !! i)
  end.

(** Outsides for the examples: a source whose pages all hold one user; a
    source whose page [k] fails; a server that fails with a plain
    [IOError]; a per-user file that cannot be opened; a per-user file on
    which the write after the content [full] fails with [accepted]
    characters kept; a domains file that opens and whose write fails with
    [accepted] characters kept; a domains file whose opening fails with an
    exception that is no [IOError]. *)
Definition endless : outside :=
  Outside None (λ _ _, inl [anonymous]) (λ _, None) (λ _ _ _, None).

Definition failing_page (batches : list (list user)) (k : nat) : outside :=
  Outside None
          (λ per_page page,
             if decide (page = k) then inr OtherException
             else source_of_batches batches per_page page)
          (λ _, None) (λ _ _ _, None).

Definition server_io_error : outside :=
  Outside (Some IOError) (source_of_batches []) (λ _, None) (λ _ _ _, None).

Definition locked_users_file (batches : list (list user)) : outside :=
  Outside None (source_of_batches batches)
          (λ path, if decide (path = USERS_FILE) then Some IOError else None)
          (λ _ _ _, None).

Definition users_file_full (batches : list (list user)) (full : string)
    (accepted : nat) : outside :=
  Outside None (source_of_batches batches) (λ _, None)
          (λ path old _,
             if decide (path = USERS_FILE ∧ old = full)
             then Some (IOError, accepted)
             else None).


Definition odd_domains_failure (batches : list (list user)) : outside :=
  Outside None (source_of_batches batches)
          (λ path,
             if decide (path = DOMAINS_FILE) then Some OtherException else None)
          (λ _ _ _, None).

Definition configured : invocation :=
  Invocation (Some "https://gitlab.example"%string) None
             None (Some "glpat-token"%string).

Example search_plain : Regex.search "a@Example.com" = Some "Example.com"%string.
Proof. reflexivity. Qed.

Example search_second_at : Regex.search "a@@b.com" = Some "b.com"%string.
Proof. reflexivity. Qed.

Example search_none : Regex.search "not-an-email" = None.
Proof. reflexivity. Qed.

Example lines_of_example :
  lines_of ("ab" +:+ nl +:+ nl +:+ "c") = ["ab"; ""; "c"]%string.
Proof. reflexivity. Qed.

Example sorted_example_emails n1 n2 n3 :
  sorted (domain_set (example_emails n1 n2 n3))
  = ["example.com"; "other.org"]%string.
Proof. vm_compute. reflexivity. Qed.

Example sorted_example :
  sorted (domain_set example_users) = ["example.com"; "other.org"]%string.
Proof. apply sorted_example_emails. Qed.

(** ** The pattern *)

Section regex_facts.
Import Regex.

Lemma append_String c (s t : string) : String c s +:+ t = String c (s +:+ t).
Proof. reflexivity. Qed.

Lemma append_empty_l (t : string) : EmptyString +:+ t = t.
Proof. reflexivity. Qed.

Lemma is_at_eq c : is_at c = true → c = at_sign.
Proof.
  unfold is_at, at_sign. intros H%N.eqb_eq.
  by rewrite <- H, ascii_N_embedding.
Qed.

Lemma is_at_at_sign : is_at at_sign = true.
Proof. reflexivity. Qed.

Lemma at_sign_not_class : in_class at_sign = false.
Proof. reflexivity. Qed.

Lemma span_class_all s : all_class (span_class s).
Proof.
  induction s as [|c s IH]; simpl; [done|].
  destruct (in_class c) eqn:Hc; simpl; auto.
Qed.

Lemma span_class_split s :
  ∃ rest, s = span_class s +:+ rest ∧ not_class_head rest.
Proof.
  induction s as [|c s (rest & Hs & Hrest)]; simpl.
  - by exists EmptyString.
  - destruct (in_class c) eqn:Hc.
    + exists rest. split; [|done]. rewrite append_String. by f_equal.
    + by exists (String c s).
Qed.

Lemma span_class_app h rest :
  all_class h → not_class_head rest → span_class (h +:+ rest) = h.
Proof.
  induction h as [|c h IH]; simpl.
  - intros _ Hrest. destruct rest as [|d rest]; simpl in *; [done|].
    by rewrite Hrest.
  - intros [Hc Hh] Hrest. rewrite Hc. by rewrite IH.
Qed.

Lemma span_class_not_head s : not_class_head s → span_class s = EmptyString.
Proof. destruct s as [|c s]; simpl; [done|]. by intros ->. Qed.

Lemma span_class_empty_head s : span_class s = EmptyString → not_class_head s.
Proof.
  destruct s as [|c s]; simpl; [done|].
  by destruct (in_class c).
Qed.

Lemma match_here_Some s h :
  match_here s = Some h →
  ∃ rest, s = String at_sign (h +:+ rest) ∧ h ≠ EmptyString ∧
          all_class h ∧ not_class_head rest.
Proof.
  destruct s as [|c s]; simpl; [done|].
  destruct (is_at c) eqn:Hc; [|done].
  apply is_at_eq in Hc as ->.
  destruct (span_class_split s) as (rest & Hs & Hrest).
  pose proof (span_class_all s) as Hall.
  destruct (span_class s) as [|d h'] eqn:Hspan; [done|].
  intros [= <-]. exists rest. by rewrite Hs at 1.
Qed.

Lemma match_here_None_at s :
  match_here (String at_sign s) = None → not_class_head s.
Proof.
  simpl. intros H. apply span_class_empty_head.
  by destruct (span_class s).
Qed.

Lemma search_captures e h : search e = Some h → captures e h.
Proof.
  induction e as [|c e IH].
  - done.
  - cbn [search]. destruct (match_here (String c e)) as [h'|] eqn:Hm.
    + intros [= ->]. apply match_here_Some in Hm as (rest & He & Hne & Hall & Hrest).
      exists EmptyString, rest. simpl. split_and!; [done..|].
      intros [|? ?] q; simpl; discriminate.
    + intros (pre & rest & -> & Hne & Hall & Hrest & Hpre)%IH.
      exists (String c pre), rest. simpl. split_and!; [done..|].
      intros [|c' p] q; simpl.
      * intros [= -> ->]. apply match_here_None_at in Hm.
        destruct q as [|d q]; simpl in *; [done|]. done.
      * intros [= _ ->]. by eapply Hpre.
Qed.

Lemma search_unfold s :
  search s =
  match match_here s with
  | Some h => Some h
  | None => match s with EmptyString => None | String _ s' => search s' end
  end.
Proof. by destruct s. Qed.

Lemma match_here_at s :
  match_here (String at_sign s) =
  match span_class s with EmptyString => None | h => Some h end.
Proof. reflexivity. Qed.

Lemma captures_search e h : captures e h → search e = Some h.
Proof.
  intros (pre & rest & -> & Hne & Hall & Hrest & Hpre).
  induction pre as [|c pre IH].
  - rewrite append_empty_l, search_unfold, match_here_at, span_class_app by done.
    by destruct h.
  - rewrite append_String, search_unfold.
    assert (match_here (String c (pre +:+ String at_sign (h +:+ rest))) = None)
      as ->.
    { unfold match_here. destruct (is_at c) eqn:Hc; [|done].
      apply is_at_eq in Hc as ->.
      specialize (Hpre EmptyString pre eq_refl).
      rewrite span_class_not_head; [done|].
      destruct pre as [|d pre]; [|done].
      apply at_sign_not_class. }
    apply IH. intros p q ->. by apply (Hpre (String c p) q).
Qed.

Lemma search_iff_captures e h : search e = Some h ↔ captures e h.
Proof. split; [apply search_captures | apply captures_search]. Qed.

End regex_facts.

(** ** Strings, sets and sorting *)

Lemma append_assoc (a b c : string) : (a +:+ b) +:+ c = a +:+ (b +:+ c).
Proof.
  induction a as [|x a IH]; [done|].
  by rewrite !append_String, IH.
Qed.

Lemma append_empty_r (a : string) : a +:+ EmptyString = a.
Proof. induction a as [|x a IH]; [done|]. by rewrite append_String, IH. Qed.

Lemma truthy_email_Some u e :
  truthy_email u = Some e ↔ email u = Some e ∧ e ≠ EmptyString.
Proof.
  unfold truthy_email. destruct (email u) as [[|c s]|]; naive_solver.
Qed.

Lemma truthy_email_nonempty u : is_Some (truthy_email u) ↔ email_nonempty u.
Proof.
  unfold email_nonempty. split.
  - intros [e He]. exists e. by apply truthy_email_Some.
  - intros (e & He). exists e. by apply truthy_email_Some.
Qed.

Lemma truthy_email_None u : truthy_email u = None ↔ ¬ email_nonempty u.
Proof.
  rewrite <- truthy_email_nonempty, <- eq_None_not_Some. done.
Qed.

Lemma domain_set_fold acc users :
  foldl (λ acc u, set_add acc (domain_of u)) acc users
  = acc ∪ list_to_set (omap domain_of users).
Proof.
  revert acc. induction users as [|u users IH]; intros acc; simpl.
  - set_solver.
  - rewrite IH. destruct (domain_of u) as [d|]; simpl; set_solver.
Qed.

Lemma domain_set_list users :
  domain_set users = list_to_set (omap domain_of users).
Proof. unfold domain_set. rewrite domain_set_fold. set_solver. Qed.

Lemma elem_of_domain_set x users :
  x ∈ domain_set users ↔ ∃ u, u ∈ users ∧ domain_of u = Some x.
Proof.
  rewrite domain_set_list, elem_of_list_to_set, list_elem_of_omap. done.
Qed.

Lemma domain_set_perm users users' :
  users ≡ₚ users' → domain_set users = domain_set users'.
Proof.
  intros Hp. apply set_eq. intros x. rewrite !elem_of_domain_set.
  by setoid_rewrite Hp.
Qed.

Lemma domain_set_app l1 l2 :
  domain_set (l1 ++ l2) = domain_set l1 ∪ domain_set l2.
Proof. rewrite !domain_set_list, omap_app, list_to_set_app_L. done. Qed.

Lemma domain_of_Some u x :
  domain_of u = Some x ↔
  ∃ e h, email u = Some e ∧ e ≠ EmptyString ∧ captures e h ∧ x = lower h.
Proof.
  unfold domain_of. split.
  - destruct (truthy_email u) as [e|] eqn:He; [|done].
    destruct (Regex.search e) as [h|] eqn:Hh; [|done].
    intros [= <-]. apply truthy_email_Some in He as [He Hne].
    exists e, h. by rewrite <- search_iff_captures.
  - intros (e & h & He & Hne & Hc & ->).
    assert (truthy_email u = Some e) as -> by by apply truthy_email_Some.
    apply search_iff_captures in Hc. by rewrite Hc.
Qed.

Lemma sorted_perm domains : sorted domains ≡ₚ elements domains.
Proof. apply merge_sort_Permutation. Qed.

Lemma elem_of_sorted x domains : x ∈ sorted domains ↔ x ∈ domains.
Proof. by rewrite sorted_perm, elem_of_elements. Qed.

Lemma NoDup_sorted domains : NoDup (sorted domains).
Proof. rewrite sorted_perm. apply NoDup_elements. Qed.

Lemma sorted_ascending domains : StronglySorted String.le (sorted domains).
Proof. apply StronglySorted_merge_sort; apply _. Qed.

Lemma StronglySorted_strict (l : list string) :
  StronglySorted String.le l → NoDup l → StronglySorted str_lt l.
Proof.
  induction 1 as [|x l Hl IH Hx]; intros Hnd; [constructor|].
  apply NoDup_cons in Hnd as [Hnin Hnd].
  constructor; [by apply IH|].
  apply Forall_forall. intros y Hy. split.
  - by eapply Forall_forall in Hx.
  - intros Hyx. eapply Forall_forall in Hx; [|done].
    assert (x = y) as -> by by apply (anti_symm String.le). done.
Qed.

Lemma sorted_strictly_ascending domains : StronglySorted str_lt (sorted domains).
Proof.
  apply StronglySorted_strict; [apply sorted_ascending | apply NoDup_sorted].
Qed.

Lemma sorted_empty : sorted ∅ = [].
Proof. unfold sorted. by rewrite elements_empty. Qed.

(** ** Running the monad *)

Lemma bind_ok {A B} (m : M A) (f : A → M B) w a w' :
  m w = (Ok a, w') → (m ≫= f) w = f a w'.
Proof. unfold mbind, M_bind. by intros ->. Qed.

Lemma bind_raise {A B} (m : M A) (f : A → M B) w e w' :
  m w = (Raise e, w') → (m ≫= f) w = (Raise e, w').
Proof. unfold mbind, M_bind. by intros ->. Qed.

Lemma bind_diverge {A B} (m : M A) (f : A → M B) w w' :
  m w = (Diverge, w') → (m ≫= f) w = (Diverge, w').
Proof. unfold mbind, M_bind. by intros ->. Qed.

Lemma try_except_ok {A} (body : M A) handlers w a w' :
  body w = (Ok a, w') → try_except body handlers w = (Ok a, w').
Proof. unfold try_except. by intros ->. Qed.

Lemma try_except_caught {A} (body : M A) handlers w e w' h :
  body w = (Raise e, w') → handlers e = Some h →
  try_except body handlers w = h w'.
Proof. unfold try_except. by intros -> ->. Qed.

Lemma try_except_passed {A} (body : M A) handlers w e w' :
  body w = (Raise e, w') → handlers e = None →
  try_except body handlers w = (Raise e, w').
Proof. unfold try_except. by intros -> ->. Qed.

Lemma open_w_run env path w :
  open_outcome env path = None →
  open_w env path w
  = (Ok tt, World (<[path := EmptyString]> (files w)) (calls w) (logs w)).
Proof. unfold open_w. by intros ->. Qed.

Lemma write_run env path data w old :
  (∀ old data, write_outcome env path old data = None) →
  files w !! path = Some old →
  write env path data w
  = (Ok tt, World (<[path := old +:+ data]> (files w)) (calls w) (logs w)).
Proof. unfold write. intros Hw ->. simpl. by rewrite Hw. Qed.

Lemma count_falsy_cons u users :
  count_falsy (u :: users)
  = match truthy_email u with
    | Some _ => count_falsy users
    | None => S (count_falsy users)
    end.
Proof.
  unfold count_falsy. rewrite filter_cons.
  destruct (truthy_email u) as [e|] eqn:He.
  - assert (email_nonempty u) by (apply truthy_email_nonempty; eauto).
    by rewrite decide_False by auto.
  - apply truthy_email_None in He. by rewrite decide_True.
Qed.

Lemma count_falsy_app l1 l2 :
  count_falsy (l1 ++ l2) = count_falsy l1 + count_falsy l2.
Proof. unfold count_falsy. by rewrite filter_app, length_app. Qed.

Lemma users_text_app l1 l2 :
  users_text (l1 ++ l2) = users_text l1 +:+ users_text l2.
Proof.
  induction l1 as [|u l1 IH]; simpl; [done|].
  destruct (truthy_email u); [|done]. by rewrite IH, append_assoc.
Qed.

Lemma users_text_lines users :
  users_text users
  = String.concat EmptyString (line_of <$> filter email_nonempty users).
Proof.
  assert (∀ l, String.concat EmptyString l = foldr String.app EmptyString l)
    as Hconcat.
  { induction l as [|x [|y l] IH]; [done| |].
    - simpl. by rewrite append_empty_r.
    - change (String.concat EmptyString (x :: y :: l))
        with (x +:+ EmptyString +:+ String.concat EmptyString (y :: l)).
      by rewrite IH. }
  rewrite Hconcat.
  induction users as [|u users IH]; [done|].
  rewrite filter_cons. simpl.
  destruct (truthy_email u) as [e|] eqn:He.
  - pose proof He as [Hu Hne]%truthy_email_Some.
    rewrite decide_True by (by exists e). rewrite fmap_cons. cbn [foldr].
    rewrite <- IH.
    unfold line_of, user_line. by rewrite Hu.
  - apply truthy_email_None in He. by rewrite decide_False.
Qed.

Lemma write_users_run env users k w old :
  fs_ok env USERS_FILE →
  files w !! USERS_FILE = Some old →
  write_users env users k w
  = (Ok (k + count_falsy users),
     World (<[USERS_FILE := old +:+ users_text users]> (files w))
           (calls w) (logs w)).
Proof.
  intros [_ Hwrite]. revert k w old.
  induction users as [|u users IH]; intros k w old Hold.
  - simpl. rewrite append_empty_r, insert_id by done.
    destruct w. unfold mret, M_ret. simpl. by rewrite Nat.add_0_r.
  - cbn [write_users users_text]. rewrite count_falsy_cons.
    destruct (truthy_email u) as [e|].
    + erewrite bind_ok by by apply write_run.
      erewrite IH by (simpl; apply lookup_insert_eq). simpl.
      by rewrite insert_insert_eq, append_assoc.
    + rewrite (IH _ _ old) by done. do 2 f_equal. lia.
Qed.

Lemma extract_domains_run env users w :
  fs_ok env USERS_FILE →
  extract_domains env users w
  = (Ok (domain_set users),
     World (<[USERS_FILE := users_text users]> (files w)) (calls w)
           (logs w ++ [Log_skipped (count_falsy users)])).
Proof.
  intros Hfs. unfold extract_domains.
  erewrite bind_ok; last first.
  { erewrite bind_ok by (apply open_w_run, Hfs).
    erewrite bind_ok; [reflexivity|].
    apply write_users_run; [done|]. simpl. apply lookup_insert_eq. }
  simpl. by rewrite insert_insert_eq.
Qed.

(** ** The domain extractor *)

(** The reference definitions and the embedded code agree on the host,
    the lower-casing, the domain of a user and the line of a user. *)
Lemma is_host_char_in_class c : Spec.is_host_char c = Regex.in_class c.
Proof. destruct c as [[] [] [] [] [] [] [] []]; by vm_compute. Qed.

Lemma eqb_at_is_at c : Ascii.eqb c "@" = Regex.is_at c.
Proof. destruct c as [[] [] [] [] [] [] [] []]; by vm_compute. Qed.

Lemma lower_case_char_lower_ascii c : Spec.lower_case_char c = lower_ascii c.
Proof. destruct c as [[] [] [] [] [] [] [] []]; by vm_compute. Qed.

Lemma host_prefix_span_class s : Spec.host_prefix s = Regex.span_class s.
Proof.
  induction s as [|c s IH]; [done|].
  cbn [Spec.host_prefix Regex.span_class].
  by rewrite is_host_char_in_class, IH.
Qed.

Lemma lower_case_lower s : Spec.lower_case s = lower s.
Proof.
  induction s as [|c s IH]; [done|].
  cbn [Spec.lower_case lower]. by rewrite lower_case_char_lower_ascii, IH.
Qed.

Lemma begins_host_match_here s :
  Regex.match_here s
  = if Spec.begins_host s
    then match s with
         | String _ rest => Some (Spec.host_prefix rest)
         | EmptyString => None
         end
    else None.
Proof.
  destruct s as [|a [|d s]]; [done| |].
  - cbn [Regex.match_here Spec.begins_host Regex.span_class].
    by destruct (Regex.is_at a).
  - cbn [Regex.match_here Spec.begins_host].
    rewrite eqb_at_is_at, is_host_char_in_class, host_prefix_span_class.
    destruct (Regex.is_at a); [|done].
    cbn [Regex.span_class andb]. by destruct (Regex.in_class d).
Qed.

Lemma pattern_host_search e : Spec.pattern_host e = Regex.search e.
Proof.
  unfold Spec.pattern_host. induction e as [|c e IH]; [done|].
  rewrite search_unfold, begins_host_match_here.
  cbn [Spec.suffixes List.find].
  destruct (Spec.begins_host (String c e)); [done|exact IH].
Qed.

Lemma spec_domain_domain_of u : Spec.domain u = domain_of u.
Proof.
  unfold Spec.domain, domain_of, truthy_email.
  destruct (email u) as [[|c e]|]; [done| |done].
  rewrite pattern_host_search.
  destruct (Regex.search (String c e)) as [h|]; [|done].
  simpl. by rewrite lower_case_lower.
Qed.

Lemma spec_domains_domain_set users : Spec.domains users = domain_set users.
Proof.
  rewrite domain_set_list. unfold Spec.domains. f_equal.
  induction users as [|u users IH]; [done|].
  cbn [omap list_omap]. rewrite spec_domain_domain_of.
  fold (omap Spec.domain users). fold (omap domain_of users). by rewrite IH.
Qed.

Lemma spec_line_user_line u e : Spec.line (username u) e = user_line u e.
Proof. reflexivity. Qed.

Lemma single_pass_write_users env users domains k w :
  Spec.single_pass env users domains k w
  = match write_users env users k w with
    | (Ok k', w') =>
        (Ok (foldl (λ acc u, set_add acc (domain_of u)) domains users, k'), w')
    | (Raise e, w') => (Raise e, w')
    | (Diverge, w') => (Diverge, w')
    end.
Proof.
  revert domains k w. induction users as [|u users IH]; intros domains k w.
  - done.
  - cbn [Spec.single_pass write_users foldl].
    rewrite <- spec_domain_domain_of. unfold Spec.domain, truthy_email.
    destruct (email u) as [[|c e]|]; [apply IH| |apply IH].
    rewrite spec_line_user_line.
    unfold mbind, M_bind.
    destruct (write env USERS_FILE (user_line u (String c e)) w)
      as [[[]|e'|] w1]; [|done..].
    rewrite IH. by destruct (Spec.pattern_host (String c e)).
Qed.

(** C8: for every user list, on every outside and from every world, the
    two-pass [extract_domains] of the script and the single-pass reference
    (which is stated on the text of the e-mails alone, with its own host,
    lower-casing and line) give the same result: the same returned domain
    set or the same raised exception, the same content of the per-user file
    and the same logged skip counter. *)
Theorem extract_domains_refines_single_pass env users w :
  extract_domains env users w = Spec.extract_domains env users w.
Proof.
  unfold extract_domains, Spec.extract_domains, mbind, M_bind.
  destruct (open_w env USERS_FILE w) as [[[]|e|] w1]; [|done..].
  rewrite single_pass_write_users. fold (domain_set users).
  by destruct (write_users env users 0 w1) as [[k|e|] w2].
Qed.

Example single_pass_reference_run :
  ∃ d w',
    Spec.extract_domains (calm []) (anonymous :: example_users) empty_world
    = (Ok d, w') ∧
    sorted d = ["example.com"; "other.org"]%string ∧
    files w' !! USERS_FILE
    = Some ("a - a@Example.com" +:+ nl +:+ "b - b@EXAMPLE.COM" +:+ nl
            +:+ "c - c@other.org" +:+ nl) ∧
    logs w' = [Log_skipped 1].
Proof. eexists _, _. split; [reflexivity|]. by vm_compute. Qed.

(** C1, as amended: when the per-user file can be written,
    [extract_domains] returns a set whose members are exactly the
    lower-cased hosts [h] captured from the users with a non-empty e-mail
    [e], where [h] is the run of letters, digits, dots and hyphens after the
    first [@] of [e] that is directly followed by such a character; the
    same set is returned for every permutation of the users. *)
Theorem extract_domains_leftmost_match_hosts env users w :
  fs_ok env USERS_FILE →
  ∃ d w',
    extract_domains env users w = (Ok d, w') ∧
    (∀ x, x ∈ d ↔
       ∃ u e h, u ∈ users ∧ email u = Some e ∧ e ≠ EmptyString ∧
                captures e h ∧ x = lower h) ∧
    (∀ users', users' ≡ₚ users → (extract_domains env users' w).1 = Ok d).
Proof.
  intros Hfs. eexists _, _. split; [by apply extract_domains_run|]. split.
  - intros x. rewrite elem_of_domain_set. setoid_rewrite domain_of_Some.
    naive_solver.
  - intros users' Hp. rewrite extract_domains_run by done. simpl.
    f_equal. by apply domain_set_perm.
Qed.

Lemma fs_ok_calm batches path : fs_ok (calm batches) path.
Proof. by split. Qed.

Lemma extract_domains_leftmost_match_hosts_witness :
  fs_ok (calm []) USERS_FILE ∧
  ∃ d w',
    extract_domains (calm []) example_users empty_world = (Ok d, w') ∧
    (∀ x, x ∈ d ↔
       ∃ u e h, u ∈ example_users ∧ email u = Some e ∧ e ≠ EmptyString ∧
                captures e h ∧ x = lower h) ∧
    (∀ users', users' ≡ₚ example_users →
       (extract_domains (calm []) users' empty_world).1 = Ok d).
Proof.
  split; [apply fs_ok_calm|].
  apply (extract_domains_leftmost_match_hosts (calm []) example_users
           empty_world).
  apply fs_ok_calm.
Defined.

(** C1 as stated fails: for the e-mail [a@@b.com] the text following the
    first [@] is no host, yet the script returns the domain [b.com]. *)
Lemma extract_domains_not_first_at :
  ∃ d,
    (extract_domains (calm []) [User "u" (Some "a@@b.com"%string)]
       empty_world).1 = Ok d ∧
    "b.com"%string ∈ d ∧
    "b.com"%string ∉ Spec.domain_set [User "u" (Some "a@@b.com"%string)].
Proof.
  eexists. split; [by rewrite extract_domains_run by apply fs_ok_calm|].
  split.
  - apply elem_of_domain_set. eexists. split; [by apply list_elem_of_here|done].
  - unfold Spec.domain_set. simpl. set_solver.
Qed.

(** C2: when the per-user file can be written, its content after
    [extract_domains] is the concatenation, in the order of the list, of
    one line ["<username> - <email>"] for each user with a non-empty e-mail
    and nothing for the other users. *)
Theorem users_file_one_line_per_email env users w :
  fs_ok env USERS_FILE →
  ∃ d w',
    extract_domains env users w = (Ok d, w') ∧
    files w' !! USERS_FILE
    = Some (String.concat EmptyString
              (line_of <$> filter email_nonempty users)).
Proof.
  intros Hfs. eexists _, _. split; [by apply extract_domains_run|].
  simpl. by rewrite lookup_insert_eq, users_text_lines.
Qed.

Lemma users_file_one_line_per_email_witness :
  fs_ok (calm []) USERS_FILE ∧
  ∃ d w',
    extract_domains (calm []) (anonymous :: example_users) empty_world
    = (Ok d, w') ∧
    files w' !! USERS_FILE
    = Some ("a - a@Example.com" +:+ nl +:+ "b - b@EXAMPLE.COM" +:+ nl
            +:+ "c - c@other.org" +:+ nl).
Proof.
  split; [apply fs_ok_calm|].
  destruct (users_file_one_line_per_email (calm [])
              (anonymous :: example_users) empty_world (fs_ok_calm _ _))
    as (d & w' & Hrun & Hfile).
  exists d, w'. split; [exact Hrun|]. rewrite Hfile. reflexivity.
Defined.

Lemma domain_of_malformed u e :
  email u = Some e → e ≠ EmptyString → Regex.search e = None →
  truthy_email u = Some e ∧ domain_of u = None.
Proof.
  intros He Hne Hs.
  assert (truthy_email u = Some e) as Ht by by apply truthy_email_Some.
  split; [done|]. unfold domain_of. by rewrite Ht, Hs.
Qed.

(** C3: when the per-user file can be written, the skip counter logged by
    [extract_domains] is the number of users whose e-mail is missing or
    empty; a user whose e-mail is non-empty but does not match the pattern
    leaves the skip counter and the domain set as they are without that
    user, and the line of that user is in the per-user file, at its place. *)
Theorem skip_counter_counts_empty_only env users w :
  fs_ok env USERS_FILE →
  ∃ d w',
    extract_domains env users w = (Ok d, w') ∧
    logs w' = logs w ++ [Log_skipped (count_falsy users)] ∧
    ∀ l1 u l2 e,
      users = l1 ++ u :: l2 →
      email u = Some e → e ≠ EmptyString → Regex.search e = None →
      count_falsy users = count_falsy (l1 ++ l2) ∧
      d = domain_set (l1 ++ l2) ∧
      files w' !! USERS_FILE
      = Some (users_text l1 +:+ (username u +:+ " - " +:+ e +:+ nl)
              +:+ users_text l2).
Proof.
  intros Hfs. eexists _, _. split; [by apply extract_domains_run|].
  split; [done|].
  intros l1 u l2 e -> He Hne Hs.
  destruct (domain_of_malformed u e He Hne Hs) as [Ht Hd].
  split_and!.
  - rewrite !count_falsy_app, count_falsy_cons. by rewrite Ht.
  - change (u :: l2) with ([u] ++ l2). rewrite !domain_set_app.
    assert (domain_set [u] = ∅) as ->.
    { rewrite domain_set_list. simpl. by rewrite Hd. }
    set_solver.
  - simpl. rewrite lookup_insert_eq, users_text_app. simpl. by rewrite Ht.
Qed.

Lemma skip_counter_counts_empty_only_witness :
  let malformed := User "m" (Some "not-an-email"%string) in
  let users := [anonymous; malformed; User "c" (Some "c@other.org"%string)] in
  fs_ok (calm []) USERS_FILE ∧
  ∃ d w',
    extract_domains (calm []) users empty_world = (Ok d, w') ∧
    logs w' = [Log_skipped 1] ∧
    d = {[ "other.org"%string ]} ∧
    files w' !! USERS_FILE
    = Some ("m - not-an-email" +:+ nl +:+ "c - c@other.org" +:+ nl).
Proof.
  intros malformed users.
  split; [apply fs_ok_calm|].
  destruct (skip_counter_counts_empty_only (calm []) users empty_world
              (fs_ok_calm _ _)) as (d & w' & Hrun & Hlog & Hmal).
  destruct (Hmal [anonymous] malformed [User "c" (Some "c@other.org"%string)]
              "not-an-email"%string eq_refl eq_refl) as (_ & Hd & Hfile).
  { discriminate. }
  { reflexivity. }
  exists d, w'. split; [exact Hrun|]. split; [exact Hlog|].
  split; [|exact Hfile].
  rewrite Hd. rewrite domain_set_list. simpl. set_solver.
Defined.

(** ** The user enumerator *)

Lemma users_list_run env gl page batch w :
  users_page env 100 page = inl batch →
  users_list env gl 100 page w
  = (Ok batch, World (files w) (calls w ++ [Users_list 100 page]) (logs w)).
Proof. unfold users_list, mbind, M_bind, call. simpl. by intros ->. Qed.

Lemma get_users_loop_run env gl (pages : nat → list user) n :
  (∀ p, users_page env 100 p = inl (pages p)) →
  ∀ fuel page acc w,
    (∀ i, i < n → pages (page + i) ≠ []) →
    pages (page + n) = [] →
    n < fuel →
    get_users_loop env gl fuel page acc w
    = (Ok (acc ++ concat (pages <$> seq page n)),
       World (files w) (calls w ++ (Users_list 100 <$> seq page (S n)))
             (logs w)).
Proof.
  intros Hsrc. induction n as [|n IH]; intros fuel page acc w Hfull Hempty Hfuel.
  - destruct fuel as [|fuel]; [lia|]. cbn [get_users_loop].
    erewrite bind_ok by (by apply users_list_run).
    rewrite Nat.add_0_r in Hempty. rewrite Hempty. simpl.
    by rewrite app_nil_r.
  - destruct fuel as [|fuel]; [lia|]. cbn [get_users_loop].
    erewrite bind_ok by (by apply users_list_run).
    pose proof (Hfull 0 ltac:(lia)) as Hne. rewrite Nat.add_0_r in Hne.
    destruct (pages page) as [|u batch] eqn:Hpage; [done|].
    rewrite IH; [| |by replace (page + 1 + n) with (page + S n) by lia|lia].
    + cbn [seq fmap list_fmap concat calls files logs].
      rewrite Hpage, <- !(assoc_L (++)).
      replace (page + 1) with (S page) by lia. done.
    + intros i Hi. replace (page + 1 + i) with (page + S i) by lia.
      apply Hfull. lia.
Qed.

Lemma first_empty_page (pages : nat → list user) k :
  (∀ p, 1 ≤ p ≤ k → pages p ≠ []) ∨
  (∃ n, 1 ≤ n ≤ k ∧ pages n = [] ∧ ∀ p, 1 ≤ p < n → pages p ≠ []).
Proof.
  induction k as [|k [IH|(n & Hn & Hempty & Hfirst)]].
  - left. intros p Hp. lia.
  - destruct (pages (S k)) as [|u b] eqn:Hk.
    + right. exists (S k). split_and!; [lia..|done|].
      intros p Hp. apply IH. lia.
    + left. intros p Hp. destruct (decide (p = S k)) as [->|Hne].
      * by rewrite Hk.
      * apply IH. lia.
  - right. exists n. split_and!; [lia..|done|done].
Qed.

Lemma get_users_run env gl (pages : nat → list user) n fuel w :
  (∀ p, users_page env 100 p = inl (pages p)) →
  1 ≤ n → pages n = [] → (∀ p, 1 ≤ p < n → pages p ≠ []) → n ≤ fuel →
  ∃ w',
    get_users env gl fuel w = (Ok (concat (pages <$> seq 1 (n - 1))), w') ∧
    calls w' = calls w ++ (Users_list 100 <$> seq 1 n) ∧
    files w' = files w.
Proof.
  intros Hsrc Hn Hn0 Hfirst Hfuel. unfold get_users.
  erewrite bind_ok by reflexivity.
  erewrite bind_ok; last first.
  { apply (get_users_loop_run env gl pages (n - 1) Hsrc).
    - intros i Hi. apply Hfirst. lia.
    - by replace (1 + (n - 1)) with n by lia.
    - lia. }
  eexists. split; [reflexivity|]. cbn [calls files].
  by replace (S (n - 1)) with n by lia.
Qed.

(** C5: for a paginated source with an empty page, [get_users] returns
    (with enough fuel for the loop: as many iterations as the index [n] of
    the first empty page); it requests the pages 1, ..., [n] in this order,
    one request each, and returns the concatenation of the pages before
    [n].  For pages of sizes 100, 100, 37 and 0 these are exactly 4 requests
    and 237 records. *)
Theorem get_users_stops_at_first_empty_page env gl (pages : nat → list user) k w :
  (∀ p, users_page env 100 p = inl (pages p)) →
  1 ≤ k →
  pages k = [] →
  (∃ n,
     1 ≤ n ≤ k ∧ pages n = [] ∧ (∀ p, 1 ≤ p < n → pages p ≠ []) ∧
     ∀ fuel, n ≤ fuel →
       ∃ w',
         get_users env gl fuel w
         = (Ok (concat (pages <$> seq 1 (n - 1))), w') ∧
         calls w' = calls w ++ (Users_list 100 <$> seq 1 n) ∧
         files w' = files w) ∧
  (length <$> (pages <$> [1; 2; 3; 4]) = [100; 100; 37; 0] →
   ∀ fuel, 4 ≤ fuel →
     ∃ users w',
       get_users env gl fuel w = (Ok users, w') ∧
       length users = 237 ∧
       calls w' = calls w ++ [Users_list 100 1; Users_list 100 2;
                              Users_list 100 3; Users_list 100 4]).
Proof.
  intros Hsrc Hk Hempty. split.
  - destruct (first_empty_page pages k) as [Hall|(n & Hn & Hn0 & Hfirst)].
    { destruct (Hall k); [lia|done]. }
    exists n. split_and!; [lia..|done|done|].
    intros fuel Hfuel. apply get_users_run; [done|lia|done..].
  - intros [= H1 H2 H3 H4] fuel Hfuel.
    apply nil_length_inv in H4.
    destruct (get_users_run env gl pages 4 fuel w) as (w' & Hrun & Hcalls & _);
      [done|lia|done| |done|].
    { intros p Hp Hnil.
      assert (p = 1 ∨ p = 2 ∨ p = 3) as [-> | [-> | ->]] by lia;
        rewrite Hnil in *; discriminate. }
    eexists _, w'. split; [exact Hrun|]. split; [|exact Hcalls].
    cbn [seq fmap list_fmap concat Nat.sub]. rewrite !length_app, H1, H2, H3.
    done.
Qed.

Lemma get_users_stops_at_first_empty_page_witness :
  let batches := [replicate 100 anonymous; replicate 100 anonymous;
                  replicate 37 anonymous] in
  ∃ users w',
    get_users (calm batches) (Session None None) 4 empty_world = (Ok users, w') ∧
    length users = 237 ∧
    calls w' = [Users_list 100 1; Users_list 100 2; Users_list 100 3;
                Users_list 100 4].
Proof.
  intros batches.
  pose (pages := λ p : nat,
          match p with O => [] | S i => default [] (batches !! i) end).
  destruct (get_users_stops_at_first_empty_page (calm batches)
              (Session None None) pages 4 empty_world)
    as [_ Hexample].
  { intros [|p]; reflexivity. }
  { lia. }
  { reflexivity. }
  exact (Hexample eq_refl 4 (le_n 4)).
Defined.

(** ** The domain writer *)

Lemma save_domains_run env domains w :
  fs_ok env DOMAINS_FILE →
  save_domains env domains w
  = (Ok tt,
     World (<[DOMAINS_FILE := join nl (sorted domains) +:+ nl]> (files w))
           (calls w)
           (logs w ++ [Log_unique_domains (size domains); Log_domains_saved])).
Proof.
  intros [Hopen Hwrite]. unfold save_domains.
  erewrite bind_ok; last first.
  { apply try_except_ok. erewrite bind_ok by by apply open_w_run.
    apply write_run; [done|]. simpl. apply lookup_insert_eq. }
  unfold mbind, M_bind, log. simpl.
  by rewrite insert_insert_eq, <- (assoc_L (++)).
Qed.

Lemma lines_aux_line cur s t :
  nl_free s →
  lines_aux cur (s +:+ String (ascii_of_N 10) t)
  = (cur +:+ s) :: lines_aux EmptyString t.
Proof.
  revert cur. induction s as [|c s IH]; intros cur Hs.
  - rewrite append_empty_l, append_empty_r. done.
  - destruct Hs as [Hc Hs]. rewrite append_String. cbn [lines_aux].
    apply Ascii.eqb_neq in Hc. rewrite Hc, IH by done.
    by rewrite append_assoc.
Qed.

Lemma join_cons_cons sep x y (l : list string) :
  join sep (x :: y :: l) = x +:+ sep +:+ join sep (y :: l).
Proof. reflexivity. Qed.

Lemma lines_of_join x (l : list string) :
  Forall nl_free (x :: l) → lines_of (join nl (x :: l) +:+ nl) = x :: l.
Proof.
  unfold lines_of. revert x. induction l as [|y l IH]; intros x Hall.
  - apply Forall_cons in Hall as [Hx _]. unfold nl at 2.
    change (join nl [x]) with x. by rewrite lines_aux_line.
  - apply Forall_cons in Hall as [Hx Hall].
    rewrite join_cons_cons, !append_assoc. unfold nl at 1.
    rewrite append_String, append_empty_l, lines_aux_line by done.
    by rewrite IH.
Qed.

Lemma lines_of_newline : lines_of nl = [EmptyString].
Proof. reflexivity. Qed.

Lemma all_class_lower_nl_free h : all_class h → nl_free (lower h).
Proof.
  induction h as [|c h IH]; [done|].
  intros [Hc Hh]. split; [|by apply IH].
  clear -Hc. destruct c as [[] [] [] [] [] [] [] []]; by vm_compute in Hc |- *.
Qed.

Lemma domain_set_nl_free users : set_Forall nl_free (domain_set users).
Proof.
  intros x (u & _ & (e & h & _ & _ & Hc & ->)%domain_of_Some)%elem_of_domain_set.
  destruct Hc as (pre & rest & _ & _ & Hall & _).
  by apply all_class_lower_nl_free.
Qed.

(** C4: when the domains file can be written, its content after
    [save_domains] is the elements of the set in strictly ascending
    lexicographic order (by character code; hence without repetition),
    joined by newlines and followed by one newline; when the elements
    contain no newline, as domains do, no line of the file occurs twice and,
    for a non-empty set, the lines of the file are the sorted elements.  For
    the domain set of the e-mails [a@Example.com], [b@EXAMPLE.COM] and
    [c@other.org] the content is [example.com], newline, [other.org],
    newline. *)
Theorem domains_file_sorted_lines env domains w :
  fs_ok env DOMAINS_FILE →
  ∃ w',
    save_domains env domains w = (Ok tt, w') ∧
    files w' !! DOMAINS_FILE = Some (join nl (sorted domains) +:+ nl) ∧
    StronglySorted str_lt (sorted domains) ∧
    NoDup (sorted domains) ∧
    (∀ d, d ∈ sorted domains ↔ d ∈ domains) ∧
    (set_Forall nl_free domains →
       NoDup (lines_of (join nl (sorted domains) +:+ nl)) ∧
       (domains ≠ ∅ →
          lines_of (join nl (sorted domains) +:+ nl) = sorted domains)) ∧
    (∀ n1 n2 n3,
       domains = domain_set (example_emails n1 n2 n3) →
       files w' !! DOMAINS_FILE
       = Some ("example.com" +:+ nl +:+ "other.org" +:+ nl)).
Proof.
  intros Hfs. eexists. split; [by apply save_domains_run|].
  split; [simpl; by rewrite lookup_insert_eq|].
  split; [apply sorted_strictly_ascending|].
  split; [apply NoDup_sorted|].
  split; [intros d; apply elem_of_sorted|].
  split; last first.
  { intros n1 n2 n3 ->. simpl.
    by rewrite lookup_insert_eq, sorted_example_emails. }
  intros Hfree.
  assert (Forall nl_free (sorted domains)) as Hall.
  { apply Forall_forall. intros d Hd%elem_of_sorted. by apply Hfree. }
  pose proof (NoDup_sorted domains) as Hnd.
  pose proof (elem_of_sorted) as Hin.
  destruct (sorted domains) as [|x l] eqn:Hs.
  - split.
    + change (NoDup [EmptyString]). apply NoDup_singleton.
    + intros Hne. exfalso. apply Hne. apply set_eq. intros d.
      rewrite <- Hin, Hs. set_solver.
  - rewrite lines_of_join by done. done.
Qed.

Lemma domains_file_sorted_lines_witness :
  fs_ok (calm []) USERS_FILE ∧ fs_ok (calm []) DOMAINS_FILE ∧
  ∃ d w1 w2,
    extract_domains (calm []) example_users empty_world = (Ok d, w1) ∧
    save_domains (calm []) d w1 = (Ok tt, w2) ∧
    files w2 !! DOMAINS_FILE
    = Some ("example.com" +:+ nl +:+ "other.org" +:+ nl) ∧
    lines_of ("example.com" +:+ nl +:+ "other.org" +:+ nl)
    = ["example.com"; "other.org"]%string.
Proof.
  split; [apply fs_ok_calm|]. split; [apply fs_ok_calm|].
  eexists _, _.
  destruct (domains_file_sorted_lines (calm []) (domain_set example_users)
              (extract_domains (calm []) example_users empty_world).2
              (fs_ok_calm _ _))
    as (w2 & Hsave & Hfile & _ & _ & _ & Hlines & _).
  exists w2. split; [by apply extract_domains_run, fs_ok_calm|].
  split; [exact Hsave|].
  rewrite sorted_example in Hfile, Hlines.
  split; [exact Hfile|].
  apply Hlines; [apply domain_set_nl_free|].
  intros Hempty. pose proof sorted_example as Hs.
  rewrite Hempty, sorted_empty in Hs. discriminate.
Defined.

(** C10: when the domains file can be written, [save_domains] on the empty
    set writes the file, and its content is one newline character, a single
    blank line, not the empty string. *)
Theorem empty_domain_set_writes_one_newline env w :
  fs_ok env DOMAINS_FILE →
  ∃ w',
    save_domains env ∅ w = (Ok tt, w') ∧
    files w' !! DOMAINS_FILE = Some nl ∧
    nl ≠ EmptyString ∧
    lines_of nl = [EmptyString].
Proof.
  intros Hfs. eexists. split; [by apply save_domains_run|].
  split; [|done]. simpl. by rewrite lookup_insert_eq, sorted_empty.
Qed.

Lemma empty_domain_set_writes_one_newline_witness :
  fs_ok (calm []) DOMAINS_FILE ∧
  ∃ w',
    save_domains (calm []) ∅ empty_world = (Ok tt, w') ∧
    files w' !! DOMAINS_FILE = Some nl ∧
    nl ≠ EmptyString ∧
    lines_of nl = [EmptyString].
Proof.
  split; [apply fs_ok_calm|].
  apply (empty_domain_set_writes_one_newline (calm []) empty_world).
  apply fs_ok_calm.
Defined.

(** ** Sessions, exits and the top-level handler *)

Lemma connect_gitlab_run env url token w :
  connect_gitlab env url token w
  = let w1 := World (files w) (calls w ++ [Gitlab_new url token; Gitlab_auth])
                    (logs w) in
    match auth_outcome env with
    | None =>
        (Ok (Session url token),
         World (files w1) (calls w1) (logs w ++ [Log_connected]))
    | Some GitlabAuthenticationError =>
        (Raise (SystemExit 2),
         World (files w1) (calls w1) (logs w ++ [Log_auth_error]))
    | Some RequestException =>
        (Raise (SystemExit 3),
         World (files w1) (calls w1) (logs w ++ [Log_connection_error]))
    | Some e => (Raise e, w1)
    end.
Proof.
  unfold connect_gitlab, try_except, mbind, M_bind, call, log, raise, sys_exit.
  simpl. rewrite <- (assoc_L (++)). simpl.
  by destruct (auth_outcome env) as [[]|].
Qed.

Lemma save_domains_open_fails env domains w e :
  open_outcome env DOMAINS_FILE = Some e →
  isinstance_IOError e = true →
  save_domains env domains w
  = (Raise (SystemExit 6),
     World (files w) (calls w) (logs w ++ [Log_write_error])).
Proof.
  intros Hopen He.
  unfold save_domains, try_except, mbind, M_bind, open_w, sys_exit, raise, log.
  rewrite Hopen, He. done.
Qed.


Lemma script_missing_config env inv fuel w :
  truthy (py_or (arg_gitlab_url inv) (env_GITLAB_URL inv)) = false ∨
  truthy (py_or (arg_token inv) (env_PRIVATE_TOKEN inv)) = false →
  script env inv fuel w
  = (Raise (SystemExit 1),
     World (files w) (calls w) (logs w ++ [Log_missing_config])).
Proof.
  unfold script. intros [-> | ->]; simpl; [done|].
  by rewrite orb_true_r.
Qed.

Lemma script_configured env inv fuel w :
  truthy (py_or (arg_gitlab_url inv) (env_GITLAB_URL inv)) = true →
  truthy (py_or (arg_token inv) (env_PRIVATE_TOKEN inv)) = true →
  script env inv fuel w
  = main env (py_or (arg_gitlab_url inv) (env_GITLAB_URL inv))
         (py_or (arg_token inv) (env_PRIVATE_TOKEN inv)) fuel w.
Proof. unfold script. by intros -> ->. Qed.

Lemma main_connect_exit env url token fuel w c w' :
  connect_gitlab env url token w = (Raise (SystemExit c), w') →
  main env url token fuel w = (Raise (SystemExit c), w').
Proof.
  intros Hconnect. unfold main. apply try_except_passed; [|done].
  by apply bind_raise.
Qed.

Lemma main_save_exit env url token fuel w gl w1 users w2 d w3 c w' :
  connect_gitlab env url token w = (Ok gl, w1) →
  get_users env gl fuel w1 = (Ok users, w2) →
  extract_domains env users w2 = (Ok d, w3) →
  save_domains env d w3 = (Raise (SystemExit c), w') →
  main env url token fuel w = (Raise (SystemExit c), w').
Proof.
  intros Hconnect Hget Hextract Hsave.
  unfold main. apply try_except_passed; [|done].
  erewrite bind_ok by done. erewrite bind_ok by done.
  erewrite bind_ok by done. by apply bind_raise.
Qed.

(** C6: with no flag and no environment variable for the endpoint and the
    credential, the script exits with status 1; it issues no API call (no
    session is constructed, no authentication and no page request) and
    leaves the files as they are. *)
Theorem missing_configuration_exits_1 env fuel w :
  exit_status (script env (Invocation None None None None) fuel w).1 = Some 1%Z ∧
  calls (script env (Invocation None None None None) fuel w).2 = calls w ∧
  files (script env (Invocation None None None None) fuel w).2 = files w.
Proof. by rewrite script_missing_config by (by left). Qed.

(** C7: with an endpoint and a credential configured, when the server
    rejects the credential in [gl.auth()], the script exits with status 2
    and the files are as before: neither output file is created or
    truncated. *)
Theorem rejected_credential_exits_2 env inv fuel w :
  truthy (py_or (arg_gitlab_url inv) (env_GITLAB_URL inv)) = true →
  truthy (py_or (arg_token inv) (env_PRIVATE_TOKEN inv)) = true →
  auth_outcome env = Some GitlabAuthenticationError →
  exit_status (script env inv fuel w).1 = Some 2%Z ∧
  files (script env inv fuel w).2 = files w ∧
  files (script env inv fuel w).2 !! USERS_FILE = files w !! USERS_FILE ∧
  files (script env inv fuel w).2 !! DOMAINS_FILE = files w !! DOMAINS_FILE.
Proof.
  intros Hurl Htoken Hauth. rewrite script_configured by done.
  erewrite main_connect_exit; last first.
  { rewrite connect_gitlab_run, Hauth. reflexivity. }
  done.
Qed.

Lemma rejected_credential_exits_2_witness :
  let inv := Invocation (Some "https://gitlab.example"%string) None
                        None (Some "glpat-token"%string) in
  auth_outcome rejecting = Some GitlabAuthenticationError ∧
  exit_status (script rejecting inv 1 empty_world).1 = Some 2%Z ∧
  files (script rejecting inv 1 empty_world).2 = ∅.
Proof.
  intros inv. split; [reflexivity|].
  destruct (rejected_credential_exits_2 rejecting inv 1 empty_world
              eq_refl eq_refl eq_refl) as (Hexit & Hfiles & _).
  split; [exact Hexit|exact Hfiles].
Defined.

(** C9: an exit of [connect_gitlab] with code 2 or 3, or of [save_domains]
    with code 6, inside the [try] block of [main] is not caught by
    [except Exception]: [main] ends with the same [SystemExit], in the same
    world (so nothing was logged by the handler), and the exit status of the
    process is that code, not 7. *)
Theorem specific_exit_codes_survive_catch_all env url token fuel w c w' :
  ((c = 2%Z ∨ c = 3%Z) ∧
   connect_gitlab env url token w = (Raise (SystemExit c), w')) ∨
  (c = 6%Z ∧
   ∃ gl w1 users w2 d w3,
     connect_gitlab env url token w = (Ok gl, w1) ∧
     get_users env gl fuel w1 = (Ok users, w2) ∧
     extract_domains env users w2 = (Ok d, w3) ∧
     save_domains env d w3 = (Raise (SystemExit c), w')) →
  main env url token fuel w = (Raise (SystemExit c), w') ∧
  exit_status (main env url token fuel w).1 = Some c ∧
  exit_status (main env url token fuel w).1 ≠ Some 7%Z.
Proof.
  intros Hcase.
  assert (main env url token fuel w = (Raise (SystemExit c), w')) as Hmain.
  { destruct Hcase as [[_ Hconnect]
                      |(_ & gl & w1 & users & w2 & d & w3 & Hconnect & Hget
                          & Hextract & Hsave)].
    - by apply main_connect_exit.
    - by eapply main_save_exit. }
  rewrite Hmain. split_and!; [done..|].
  simpl. intros [= ->]. naive_solver.
Qed.

Lemma specific_exit_codes_survive_catch_all_witness :
  let url := Some "https://gitlab.example"%string in
  let token := Some "glpat-token"%string in
  exit_status (main rejecting url token 1 empty_world).1 = Some 2%Z ∧
  exit_status (main unreachable url token 1 empty_world).1 = Some 3%Z ∧
  exit_status (main (read_only_domains [example_users]) url token 2
                 empty_world).1 = Some 6%Z.
Proof.
  intros url token. split_and!.
  - eapply (specific_exit_codes_survive_catch_all rejecting url token 1
              empty_world 2).
    left. split; [by left|]. rewrite connect_gitlab_run. reflexivity.
  - eapply (specific_exit_codes_survive_catch_all unreachable url token 1
              empty_world 3).
    left. split; [by right|]. rewrite connect_gitlab_run. reflexivity.
  - pose (env := read_only_domains [example_users]).
    pose (gl := Session url token).
    pose (w1 := (connect_gitlab env url token empty_world).2).
    pose (w2 := (get_users env gl 2 w1).2).
    eapply (specific_exit_codes_survive_catch_all env url token 2
              empty_world 6).
    right. split; [done|].
    exists gl, w1, example_users, w2. eexists _, _.
    split; [by rewrite connect_gitlab_run|].
    split; [reflexivity|].
    split; [apply extract_domains_run; by split|].
    by apply (save_domains_open_fails _ _ _ IOError).
Defined.

(** ** A complete run *)

(** One page with the three example users and a user without e-mail: the
    script exits with status 0 after two page requests and leaves both
    files. *)
Example script_complete_run :
  let inv := Invocation (Some "https://gitlab.example"%string) None
                        None (Some "glpat-token"%string) in
  let r := script (calm [anonymous :: example_users]) inv 2 empty_world in
  exit_status r.1 = Some 0%Z ∧
  calls r.2 = [Gitlab_new (Some "https://gitlab.example"%string)
                          (Some "glpat-token"%string);
               Gitlab_auth; Users_list 100 1; Users_list 100 2] ∧
  files r.2 !! USERS_FILE
  = Some ("a - a@Example.com" +:+ nl +:+ "b - b@EXAMPLE.COM" +:+ nl
          +:+ "c - c@other.org" +:+ nl) ∧
  files r.2 !! DOMAINS_FILE
  = Some ("example.com" +:+ nl +:+ "other.org" +:+ nl) ∧
  logs r.2 = [Log_connected; Log_fetching; Log_total_users 4; Log_skipped 1;
              Log_unique_domains 2; Log_domains_saved; Log_users_saved;
              Log_completed].
Proof. vm_compute. done. Qed.

(** A failure while the per-user file is written is not an exit of its own:
    the catch-all of [main] turns it into status 7. *)
Example users_file_failure_exits_7 :
  let inv := Invocation (Some "https://gitlab.example"%string) None
                        None (Some "glpat-token"%string) in
  let env := Outside None (source_of_batches [example_users])
                     (λ path, if decide (path = USERS_FILE)
                              then Some IOError else None)
                     (λ _ _ _, None) in
  exit_status (script env inv 2 empty_world).1 = Some 7%Z.
Proof. vm_compute. done. Qed.

(** ** What every run keeps *)

Section keeps_facts.
Context (R : relation world) `{!PreOrder R}.

Lemma keeps_ret {A} (a : A) : keeps R (mret a : M A).
Proof. intros w. reflexivity. Qed.

Lemma keeps_raise {A} e : keeps R (raise e : M A).
Proof. intros w. reflexivity. Qed.

Lemma keeps_diverge {A} : keeps R (diverge : M A).
Proof. intros w. reflexivity. Qed.

Lemma keeps_bind {A B} (m : M A) (f : A → M B) :
  keeps R m → (∀ a, keeps R (f a)) → keeps R (m ≫= f).
Proof.
  intros Hm Hf w. unfold mbind, M_bind. specialize (Hm w).
  destruct (m w) as [[a|e|] w1]; simpl in *; [|done..].
  etrans; [exact Hm|]. apply Hf.
Qed.

Lemma keeps_try_except {A} (body : M A) handlers :
  keeps R body →
  (∀ e h, handlers e = Some h → keeps R h) →
  keeps R (try_except body handlers).
Proof.
  intros Hbody Hh w. unfold try_except. specialize (Hbody w).
  destruct (body w) as [[a|e|] w1]; simpl in *; [done| |done].
  destruct (handlers e) as [h|] eqn:He; [|done].
  etrans; [exact Hbody|]. by eapply Hh.
Qed.

End keeps_facts.

#[global] Instance same_other_files_preorder : PreOrder same_other_files.
Proof.
  split.
  - by intros w path _.
  - intros w1 w2 w3 H12 H23 path Hp. by rewrite H23, H12.
Qed.

#[global] Instance same_calls_preorder : PreOrder same_calls.
Proof.
  unfold same_calls. split; [done|]. intros w1 w2 w3 H12 H23. congruence.
Qed.

#[global] Instance same_files_preorder : PreOrder same_files.
Proof.
  unfold same_files. split; [done|]. intros w1 w2 w3 H12 H23. congruence.
Qed.

Lemma log_keeps_files r : keeps same_files (log r).
Proof. by intros w. Qed.

Lemma log_keeps_calls r : keeps same_calls (log r).
Proof. by intros w. Qed.

Lemma log_keeps_other_files r : keeps same_other_files (log r).
Proof. by intros w path _. Qed.

Lemma call_keeps_files c : keeps same_files (call c).
Proof. by intros w. Qed.

Lemma open_w_keeps_calls env path : keeps same_calls (open_w env path).
Proof. intros w. unfold open_w. by destruct (open_outcome env path). Qed.

Lemma write_keeps_calls env path data : keeps same_calls (write env path data).
Proof.
  intros w. unfold write. simpl.
  by destruct (write_outcome env path _ _) as [[e n]|].
Qed.

Lemma open_w_keeps_other_files env path :
  output_file path → keeps same_other_files (open_w env path).
Proof.
  intros Hout w. unfold open_w. destruct (open_outcome env path); [done|].
  intros path' Hp. simpl. apply lookup_insert_ne. by intros ->.
Qed.

Lemma write_keeps_other_files env path data :
  output_file path → keeps same_other_files (write env path data).
Proof.
  intros Hout w. unfold write. simpl.
  destruct (write_outcome env path _ _) as [[e n]|];
    intros path' Hp; simpl; apply lookup_insert_ne; by intros ->.
Qed.

Lemma write_users_keeps env (R : relation world) `{!PreOrder R} users k :
  (∀ data, keeps R (write env USERS_FILE data)) →
  keeps R (write_users env users k).
Proof.
  intros Hw. revert k. induction users as [|u users IH]; intros k.
  - by apply keeps_ret.
  - cbn [write_users]. destruct (truthy_email u) as [e|]; [|apply IH].
    apply keeps_bind; [done..|]. intros _. apply IH.
Qed.

Lemma extract_domains_keeps env (R : relation world) `{!PreOrder R} users :
  keeps R (open_w env USERS_FILE) →
  (∀ data, keeps R (write env USERS_FILE data)) →
  (∀ r, keeps R (log r)) →
  keeps R (extract_domains env users).
Proof.
  intros Ho Hw Hl. unfold extract_domains.
  apply keeps_bind; [done| |].
  - apply keeps_bind; [done..|]. intros _.
    apply keeps_bind; [done| |].
    + by apply write_users_keeps.
    + intros k. by apply keeps_ret.
  - intros r. apply keeps_bind; [done..|]. intros _. by apply keeps_ret.
Qed.

Lemma save_domains_keeps env (R : relation world) `{!PreOrder R} domains :
  keeps R (open_w env DOMAINS_FILE) →
  (∀ data, keeps R (write env DOMAINS_FILE data)) →
  (∀ r, keeps R (log r)) →
  keeps R (save_domains env domains).
Proof.
  intros Ho Hw Hl. unfold save_domains.
  apply keeps_bind; [done| |].
  - apply keeps_try_except; [done| |].
    + apply keeps_bind; [done..|]. intros _. apply Hw.
    + intros e h. destruct (isinstance_IOError e); [|done].
      intros [= <-]. apply keeps_bind; [done..|]. intros _.
      by apply keeps_raise.
  - intros _. apply keeps_bind; [done..|]. intros _. apply Hl.
Qed.

Lemma users_list_keeps_files env gl per_page page :
  keeps same_files (users_list env gl per_page page).
Proof.
  intros w. unfold users_list, mbind, M_bind, call. simpl.
  by destruct (users_page env per_page page).
Qed.

Lemma connect_gitlab_keeps_files env url token :
  keeps same_files (connect_gitlab env url token).
Proof.
  intros w. rewrite connect_gitlab_run. simpl.
  by destruct (auth_outcome env) as [[]|].
Qed.

Lemma get_users_loop_keeps_files env gl fuel page acc :
  keeps same_files (get_users_loop env gl fuel page acc).
Proof.
  revert page acc. induction fuel as [|fuel IH]; intros page acc.
  - by intros w.
  - cbn [get_users_loop]. apply keeps_bind; [apply _| |].
    + apply users_list_keeps_files.
    + intros [|u batch]; [by intros w|apply IH].
Qed.

Lemma get_users_keeps_files env gl fuel : keeps same_files (get_users env gl fuel).
Proof.
  unfold get_users. apply keeps_bind; [apply _|apply log_keeps_files|].
  intros _. apply keeps_bind; [apply _|apply get_users_loop_keeps_files|].
  intros users. apply keeps_bind; [apply _|apply log_keeps_files|].
  intros _. by intros w.
Qed.

Lemma same_files_other w w' : same_files w w' → same_other_files w w'.
Proof. intros H path _. by rewrite H. Qed.

Lemma keeps_same_files_other {A} (m : M A) :
  keeps same_files m → keeps same_other_files m.
Proof. intros H w. apply same_files_other, H. Qed.

Lemma main_keeps_other_files env url token fuel :
  keeps same_other_files (main env url token fuel).
Proof.
  unfold main. apply keeps_try_except; [apply _| |].
  - apply keeps_bind; [apply _| |].
    { apply keeps_same_files_other, connect_gitlab_keeps_files. }
    intros gl. apply keeps_bind; [apply _| |].
    { apply keeps_same_files_other, get_users_keeps_files. }
    intros users. apply keeps_bind; [apply _| |].
    { apply extract_domains_keeps; [apply _|..].
      - apply open_w_keeps_other_files. by left.
      - intros data. apply write_keeps_other_files. by left.
      - apply log_keeps_other_files. }
    intros d. apply keeps_bind; [apply _| |].
    { apply save_domains_keeps; [apply _|..].
      - apply open_w_keeps_other_files. by right.
      - intros data. apply write_keeps_other_files. by right.
      - apply log_keeps_other_files. }
    intros _. apply keeps_bind; [apply _|apply log_keeps_other_files|].
    intros _. apply log_keeps_other_files.
  - intros e h. destruct (isinstance_Exception e); [|done].
    intros [= <-]. apply keeps_bind; [apply _|apply log_keeps_other_files|].
    intros _. intros w. reflexivity.
Qed.

(** X1: whatever the outside does and however the run ends, the script
    leaves every file other than [all_users_with_domains.txt] and
    [unique_domains.txt] as it was. *)
Theorem script_touches_output_files_only env inv fuel w path :
  path ≠ USERS_FILE →
  path ≠ DOMAINS_FILE →
  files (script env inv fuel w).2 !! path = files w !! path.
Proof.
  intros Hu Hd. unfold script.
  destruct (negb _ || negb _).
  - done.
  - apply main_keeps_other_files. by intros [|].
Qed.

Lemma script_touches_output_files_only_witness :
  let w := World {[ "notes.txt"%string := "keep"%string ]} [] [] in
  files (script (calm [example_users]) configured 2 w).2 !! "notes.txt"%string
  = files w !! "notes.txt"%string.
Proof.
  intros w.
  apply (script_touches_output_files_only (calm [example_users]) configured 2
           w "notes.txt"); discriminate.
Defined.

(** ** The API calls of a run *)

Lemma bind_world {A B} (m : M A) (f : A → M B) w :
  ((m ≫= f) w).2
  = match m w with
    | (Ok a, w1) => (f a w1).2
    | (_, w1) => w1
    end.
Proof. unfold mbind, M_bind. by destruct (m w) as [[a|e|] w1]. Qed.

Lemma users_list_result env gl per_page page w :
  users_list env gl per_page page w
  = (match users_page env per_page page with
     | inl batch => Ok batch
     | inr e => Raise e
     end,
     World (files w) (calls w ++ [Users_list per_page page]) (logs w)).
Proof.
  unfold users_list, mbind, M_bind, call. simpl.
  by destruct (users_page env per_page page).
Qed.

Lemma get_users_loop_calls env gl fuel page acc w :
  ∃ j, j ≤ fuel ∧
    calls (get_users_loop env gl fuel page acc w).2
    = calls w ++ (Users_list 100 <$> seq page j).
Proof.
  revert page acc w. induction fuel as [|fuel IH]; intros page acc w.
  - exists 0. split; [done|]. simpl. by rewrite app_nil_r.
  - cbn [get_users_loop]. rewrite bind_world, users_list_result.
    destruct (users_page env 100 page) as [[|u batch]|e].
    + exists 1. split; [lia|]. done.
    + destruct (IH (page + 1) (acc ++ u :: batch)
                  (World (files w) (calls w ++ [Users_list 100 page]) (logs w)))
        as (j & Hj & Hcalls).
      exists (S j). split; [lia|]. rewrite Hcalls. simpl.
      rewrite <- (assoc_L (++)). simpl.
      by replace (page + 1) with (S page) by lia.
    + exists 1. split; [lia|]. done.
Qed.

Lemma get_users_calls env gl fuel w :
  ∃ j, j ≤ fuel ∧
    calls (get_users env gl fuel w).2
    = calls w ++ (Users_list 100 <$> seq 1 j).
Proof.
  unfold get_users. rewrite bind_world. simpl. rewrite bind_world.
  destruct (get_users_loop_calls env gl fuel 1 []
              (World (files w) (calls w) (logs w ++ [Log_fetching])))
    as (j & Hj & Hcalls).
  exists j. split; [done|].
  destruct (get_users_loop env gl fuel 1 [] _) as [[users|e|] w1];
    simpl in *; done.
Qed.

Lemma try_except_calls {A} (body : M A) handlers w :
  (∀ e h, handlers e = Some h → keeps same_calls h) →
  calls (try_except body handlers w).2 = calls (body w).2.
Proof.
  intros Hh. unfold try_except.
  destruct (body w) as [[a|e|] w1]; simpl; [done| |done].
  destruct (handlers e) as [h|] eqn:He; [|done].
  by apply (Hh e h).
Qed.

Lemma connect_gitlab_cases env url token w :
  ∃ w1,
    calls w1 = calls w ++ [Gitlab_new url token; Gitlab_auth] ∧
    files w1 = files w ∧
    (connect_gitlab env url token w = (Ok (Session url token), w1) ∨
     ∃ e, connect_gitlab env url token w = (Raise e, w1)).
Proof.
  rewrite connect_gitlab_run. cbv zeta.
  destruct (auth_outcome env) as [[]|];
    (eexists; split; [|split; [|first [by left | right; by eexists]]]);
    done.
Qed.

Lemma main_rest_keeps_calls env users :
  keeps same_calls
    (extract_domains env users ≫= λ unique_domains,
       save_domains env unique_domains ≫= λ _,
         log Log_users_saved ≫= λ _, log Log_completed).
Proof.
  apply keeps_bind; [apply _| |].
  { apply extract_domains_keeps; [apply _|..].
    - apply open_w_keeps_calls.
    - intros data. apply write_keeps_calls.
    - apply log_keeps_calls. }
  intros d. apply keeps_bind; [apply _| |].
  { apply save_domains_keeps; [apply _|..].
    - apply open_w_keeps_calls.
    - intros data. apply write_keeps_calls.
    - apply log_keeps_calls. }
  intros _. apply keeps_bind; [apply _|apply log_keeps_calls|].
  intros _. apply log_keeps_calls.
Qed.

Lemma main_calls env url token fuel w :
  ∃ j, j ≤ fuel ∧
    calls (main env url token fuel w).2
    = calls w ++ Gitlab_new url token :: Gitlab_auth
                 :: (Users_list 100 <$> seq 1 j).
Proof.
  unfold main. rewrite try_except_calls; last first.
  { intros e h. destruct (isinstance_Exception e); [|done].
    intros [= <-]. apply keeps_bind; [apply _|apply log_keeps_calls|].
    intros _ w'. reflexivity. }
  rewrite bind_world.
  destruct (connect_gitlab_cases env url token w)
    as (w1 & Hcalls1 & _ & [Hc|[e Hc]]); rewrite Hc.
  - rewrite bind_world.
    destruct (get_users_calls env (Session url token) fuel w1)
      as (j & Hj & Hcalls).
    exists j. split; [done|].
    assert (calls (get_users env (Session url token) fuel w1).2
            = calls w ++ Gitlab_new url token :: Gitlab_auth
                         :: (Users_list 100 <$> seq 1 j)) as Hall.
    { rewrite Hcalls, Hcalls1. by rewrite <- (assoc_L (++)). }
    destruct (get_users env (Session url token) fuel w1) as [[users|e|] w2];
      [|done..].
    rewrite <- Hall. apply main_rest_keeps_calls.
  - exists 0. split; [lia|]. done.
Qed.

(** X2: whatever the outside does and however the run ends, the API calls
    of the script are none at all, or the construction of the session, the
    authentication and then requests with [per_page=100] for the pages 1, 2,
    ..., [j] in this order, each once, with [j] at most the number of loop
    iterations. *)
Theorem script_api_calls env inv fuel w :
  ∃ l,
    calls (script env inv fuel w).2 = calls w ++ l ∧
    (l = [] ∨
     ∃ url token j,
       j ≤ fuel ∧
       l = Gitlab_new url token :: Gitlab_auth
           :: (Users_list 100 <$> seq 1 j)).
Proof.
  unfold script. destruct (negb _ || negb _).
  - exists []. split; [|by left]. simpl. by rewrite app_nil_r.
  - destruct (main_calls env (py_or (arg_gitlab_url inv) (env_GITLAB_URL inv))
                (py_or (arg_token inv) (env_PRIVATE_TOKEN inv)) fuel w)
      as (j & Hj & Hcalls).
    eexists. split; [exact Hcalls|]. right. by eexists _, _, j.
Qed.

(** ** The configuration *)

(** X3: when the endpoint or the credential is missing or empty after the
    flag and the environment variable are merged, the script exits with
    status 1, issues no API call, touches no file and logs the one record
    of the missing configuration. *)
Theorem either_missing_exits_1 env inv fuel w :
  truthy (py_or (arg_gitlab_url inv) (env_GITLAB_URL inv)) = false ∨
  truthy (py_or (arg_token inv) (env_PRIVATE_TOKEN inv)) = false →
  exit_status (script env inv fuel w).1 = Some 1%Z ∧
  calls (script env inv fuel w).2 = calls w ∧
  files (script env inv fuel w).2 = files w ∧
  logs (script env inv fuel w).2 = logs w ++ [Log_missing_config].
Proof. intros H. by rewrite script_missing_config. Qed.

Lemma either_missing_exits_1_witness :
  let inv := Invocation (Some "https://gitlab.example"%string)
                        (Some EmptyString) None None in
  exit_status (script (calm []) inv 1 empty_world).1 = Some 1%Z ∧
  calls (script (calm []) inv 1 empty_world).2 = [] ∧
  files (script (calm []) inv 1 empty_world).2 = ∅ ∧
  logs (script (calm []) inv 1 empty_world).2 = [Log_missing_config].
Proof.
  intros inv.
  apply (either_missing_exits_1 (calm []) inv 1 empty_world).
  right. reflexivity.
Defined.

Lemma effective_py_or flag variable v :
  effective flag variable v →
  py_or flag variable = Some v ∧ truthy (Some v) = true.
Proof.
  intros [Hv Hcase].
  assert (truthy (Some v) = true) as Ht by by destruct v.
  split; [|done]. unfold py_or.
  destruct Hcase as [-> | [[-> | ->] ->]]; [by rewrite Ht|done..].
Qed.

(** X4: a non-empty command-line flag takes precedence over the environment
    variable, and an absent or empty flag falls back to a non-empty
    variable: with the effective endpoint [url] and credential [token] the
    first API calls of the run are the construction of the session for
    exactly these two values and the authentication. *)
Theorem flags_take_precedence env inv fuel w url token :
  effective (arg_gitlab_url inv) (env_GITLAB_URL inv) url →
  effective (arg_token inv) (env_PRIVATE_TOKEN inv) token →
  ∃ rest,
    calls (script env inv fuel w).2
    = calls w ++ Gitlab_new (Some url) (Some token) :: Gitlab_auth :: rest.
Proof.
  intros [Hu Hut]%effective_py_or [Ht Htt]%effective_py_or.
  rewrite script_configured by by rewrite ?Hu, ?Ht.
  rewrite Hu, Ht.
  destruct (main_calls env (Some url) (Some token) fuel w) as (j & _ & Hcalls).
  eexists. exact Hcalls.
Qed.

Lemma flags_take_precedence_witness :
  let inv := Invocation (Some "https://flag.example"%string) (Some EmptyString)
                        (Some "https://env.example"%string)
                        (Some "env-token"%string) in
  ∃ rest,
    calls (script (calm []) inv 1 empty_world).2
    = Gitlab_new (Some "https://flag.example"%string)
                 (Some "env-token"%string) :: Gitlab_auth :: rest.
Proof.
  intros inv.
  apply (flags_take_precedence (calm []) inv 1 empty_world
           "https://flag.example" "env-token").
  - split; [discriminate|]. by left.
  - split; [discriminate|]. right. split; [by right|done].
Defined.

(** ** Pagination without an end *)

Lemma get_users_loop_never_empty env gl fuel page acc w :
  (∀ p, page ≤ p → ∃ u batch, users_page env 100 p = inl (u :: batch)) →
  get_users_loop env gl fuel page acc w
  = (Diverge,
     World (files w) (calls w ++ (Users_list 100 <$> seq page fuel)) (logs w)).
Proof.
  revert page acc w. induction fuel as [|fuel IH]; intros page acc w Hsrc.
  - simpl. rewrite app_nil_r. by destruct w.
  - cbn [get_users_loop].
    destruct (Hsrc page (le_n _)) as (u & batch & Hpage).
    erewrite bind_ok by (rewrite users_list_result, Hpage; reflexivity).
    cbv beta iota.
    rewrite IH by (intros p Hp; apply Hsrc; lia).
    simpl. rewrite <- (assoc_L (++)). simpl.
    by replace (page + 1) with (S page) by lia.
Qed.

(** X5: the loop of [get_users] has no bound of its own: on a source whose
    pages are all non-empty it never returns; after any number [fuel] of
    iterations it has requested the pages 1, ..., [fuel] and is still
    running, and no file has been touched.  With a configured endpoint and
    credential and a successful authentication, the script then has no
    exit status. *)
Theorem get_users_never_returns_without_empty_page env url token inv fuel w :
  (∀ p, 1 ≤ p → ∃ u batch, users_page env 100 p = inl (u :: batch)) →
  (get_users env (Session url token) fuel w).1 = Diverge ∧
  calls (get_users env (Session url token) fuel w).2
  = calls w ++ (Users_list 100 <$> seq 1 fuel) ∧
  (truthy (py_or (arg_gitlab_url inv) (env_GITLAB_URL inv)) = true →
   truthy (py_or (arg_token inv) (env_PRIVATE_TOKEN inv)) = true →
   auth_outcome env = None →
   exit_status (script env inv fuel w).1 = None ∧
   files (script env inv fuel w).2 = files w).
Proof.
  intros Hsrc.
  assert (∀ gl w0,
            get_users env gl fuel w0
            = (Diverge,
               World (files w0) (calls w0 ++ (Users_list 100 <$> seq 1 fuel))
                     (logs w0 ++ [Log_fetching]))) as Hget.
  { intros gl w0. unfold get_users. erewrite bind_ok by reflexivity.
    erewrite bind_diverge; [reflexivity|].
    by rewrite get_users_loop_never_empty. }
  split_and!; [by rewrite Hget..|].
  intros Hurl Htoken Hauth. rewrite script_configured by done.
  unfold main, try_except.
  erewrite bind_ok by (rewrite connect_gitlab_run, Hauth; reflexivity).
  erewrite bind_diverge by apply Hget. done.
Qed.

Lemma get_users_never_returns_without_empty_page_witness :
  (get_users endless (Session None None) 3 empty_world).1 = Diverge ∧
  calls (get_users endless (Session None None) 3 empty_world).2
  = [Users_list 100 1; Users_list 100 2; Users_list 100 3] ∧
  exit_status (script endless configured 3 empty_world).1 = None.
Proof.
  destruct (get_users_never_returns_without_empty_page endless None None
              configured 3 empty_world) as (Hres & Hcalls & Hscript).
  { intros p _. by exists anonymous, []. }
  split; [exact Hres|]. split; [exact Hcalls|].
  exact (proj1 (Hscript eq_refl eq_refl eq_refl)).
Defined.

(** ** Failures on the way *)

Lemma main_caught env url token fuel w e w' :
  (connect_gitlab env url token ≫= λ gl,
     get_users env gl fuel ≫= λ users,
       extract_domains env users ≫= λ unique_domains,
         save_domains env unique_domains ≫= λ _,
           log Log_users_saved ≫= λ _, log Log_completed) w
  = (Raise e, w') →
  isinstance_Exception e = true →
  main env url token fuel w
  = (Raise (SystemExit 7),
     World (files w') (calls w') (logs w' ++ [Log_unexpected e])).
Proof.
  intros Hbody He. unfold main.
  erewrite try_except_caught; [|exact Hbody|by rewrite He].
  reflexivity.
Qed.

Lemma main_passed env url token fuel w c w' :
  (connect_gitlab env url token ≫= λ gl,
     get_users env gl fuel ≫= λ users,
       extract_domains env users ≫= λ unique_domains,
         save_domains env unique_domains ≫= λ _,
           log Log_users_saved ≫= λ _, log Log_completed) w
  = (Raise (SystemExit c), w') →
  main env url token fuel w = (Raise (SystemExit c), w').
Proof. intros Hbody. unfold main. by apply try_except_passed. Qed.

(** X6: when the server cannot be reached during the authentication (a
    [RequestException]), the script exits with status 3; it has
    constructed the session and tried to authenticate, has requested no
    page, and has touched no file. *)
Theorem unreachable_server_exits_3 env inv fuel w :
  truthy (py_or (arg_gitlab_url inv) (env_GITLAB_URL inv)) = true →
  truthy (py_or (arg_token inv) (env_PRIVATE_TOKEN inv)) = true →
  auth_outcome env = Some RequestException →
  exit_status (script env inv fuel w).1 = Some 3%Z ∧
  files (script env inv fuel w).2 = files w ∧
  calls (script env inv fuel w).2
  = calls w ++ [Gitlab_new (py_or (arg_gitlab_url inv) (env_GITLAB_URL inv))
                           (py_or (arg_token inv) (env_PRIVATE_TOKEN inv));
                Gitlab_auth] ∧
  logs (script env inv fuel w).2 = logs w ++ [Log_connection_error].
Proof.
  intros Hurl Htoken Hauth. rewrite script_configured by done.
  erewrite main_connect_exit; last first.
  { rewrite connect_gitlab_run, Hauth. reflexivity. }
  done.
Qed.

Lemma unreachable_server_exits_3_witness :
  exit_status (script unreachable configured 1 empty_world).1 = Some 3%Z ∧
  files (script unreachable configured 1 empty_world).2 = ∅ ∧
  calls (script unreachable configured 1 empty_world).2
  = [Gitlab_new (Some "https://gitlab.example"%string)
                (Some "glpat-token"%string); Gitlab_auth] ∧
  logs (script unreachable configured 1 empty_world).2 = [Log_connection_error].
Proof.
  apply (unreachable_server_exits_3 unreachable configured 1 empty_world);
    reflexivity.
Defined.

(** X7: a failure of the authentication that is neither a rejected
    credential nor a [RequestException] (a plain [IOError], say) is not
    handled by [connect_gitlab]: the catch-all of [main] logs it and the
    script exits with status 7, not 3, without a page request and without
    touching a file. *)
Theorem other_auth_failure_exits_7 env inv fuel w e :
  truthy (py_or (arg_gitlab_url inv) (env_GITLAB_URL inv)) = true →
  truthy (py_or (arg_token inv) (env_PRIVATE_TOKEN inv)) = true →
  auth_outcome env = Some e →
  isinstance_Exception e = true →
  isinstance_GitlabAuthenticationError e = false →
  isinstance_RequestException e = false →
  exit_status (script env inv fuel w).1 = Some 7%Z ∧
  files (script env inv fuel w).2 = files w ∧
  calls (script env inv fuel w).2
  = calls w ++ [Gitlab_new (py_or (arg_gitlab_url inv) (env_GITLAB_URL inv))
                           (py_or (arg_token inv) (env_PRIVATE_TOKEN inv));
                Gitlab_auth] ∧
  logs (script env inv fuel w).2 = logs w ++ [Log_unexpected e].
Proof.
  intros Hurl Htoken Hauth He Hnauth Hnreq. rewrite script_configured by done.
  erewrite main_caught; [|apply bind_raise|exact He]; last first.
  { rewrite connect_gitlab_run, Hauth. by destruct e. }
  done.
Qed.

Lemma other_auth_failure_exits_7_witness :
  exit_status (script server_io_error configured 1 empty_world).1 = Some 7%Z ∧
  files (script server_io_error configured 1 empty_world).2 = ∅ ∧
  calls (script server_io_error configured 1 empty_world).2
  = [Gitlab_new (Some "https://gitlab.example"%string)
                (Some "glpat-token"%string); Gitlab_auth] ∧
  logs (script server_io_error configured 1 empty_world).2
  = [Log_unexpected IOError].
Proof.
  apply (other_auth_failure_exits_7 server_io_error configured 1 empty_world
           IOError); reflexivity.
Defined.

Lemma get_users_loop_fails env gl n e :
  ∀ fuel page acc w,
    (∀ i, i < n → ∃ u batch, users_page env 100 (page + i) = inl (u :: batch)) →
    users_page env 100 (page + n) = inr e →
    n < fuel →
    get_users_loop env gl fuel page acc w
    = (Raise e,
       World (files w) (calls w ++ (Users_list 100 <$> seq page (S n)))
             (logs w)).
Proof.
  induction n as [|n IH]; intros fuel page acc w Hfull Hfail Hfuel.
  - destruct fuel as [|fuel]; [lia|]. cbn [get_users_loop].
    rewrite Nat.add_0_r in Hfail.
    erewrite bind_raise by (rewrite users_list_result, Hfail; reflexivity).
    done.
  - destruct fuel as [|fuel]; [lia|]. cbn [get_users_loop].
    destruct (Hfull 0 ltac:(lia)) as (u & batch & Hpage).
    rewrite Nat.add_0_r in Hpage.
    erewrite bind_ok by (rewrite users_list_result, Hpage; reflexivity).
    cbv beta iota.
    rewrite IH; [| |by replace (page + 1 + n) with (page + S n) by lia|lia].
    + cbn [seq fmap list_fmap calls files logs].
      rewrite <- !(assoc_L (++)).
      replace (page + 1) with (S page) by lia. done.
    + intros i Hi. replace (page + 1 + i) with (page + S i) by lia.
      apply Hfull. lia.
Qed.

(** X8: when the request for page [k] fails and the pages before it were
    non-empty, [get_users] does not handle the failure: the script exits
    with status 7 after exactly the requests for the pages 1, ..., [k]; the
    records fetched so far are dropped and no file is touched. *)
Theorem page_failure_exits_7 env inv fuel w k e :
  truthy (py_or (arg_gitlab_url inv) (env_GITLAB_URL inv)) = true →
  truthy (py_or (arg_token inv) (env_PRIVATE_TOKEN inv)) = true →
  auth_outcome env = None →
  1 ≤ k ≤ fuel →
  (∀ p, 1 ≤ p < k → ∃ u batch, users_page env 100 p = inl (u :: batch)) →
  users_page env 100 k = inr e →
  isinstance_Exception e = true →
  exit_status (script env inv fuel w).1 = Some 7%Z ∧
  files (script env inv fuel w).2 = files w ∧
  calls (script env inv fuel w).2
  = calls w ++ Gitlab_new (py_or (arg_gitlab_url inv) (env_GITLAB_URL inv))
                          (py_or (arg_token inv) (env_PRIVATE_TOKEN inv))
               :: Gitlab_auth :: (Users_list 100 <$> seq 1 k) ∧
  logs (script env inv fuel w).2
  = logs w ++ [Log_connected; Log_fetching; Log_unexpected e].
Proof.
  intros Hurl Htoken Hauth Hk Hfull Hfail He.
  rewrite script_configured by done.
  erewrite main_caught; [| |exact He]; last first.
  { erewrite bind_ok by (rewrite connect_gitlab_run, Hauth; reflexivity).
    apply bind_raise. unfold get_users.
    erewrite bind_ok by reflexivity. apply bind_raise.
    apply (get_users_loop_fails env _ (k - 1) e).
    - intros i Hi. apply Hfull. lia.
    - by replace (1 + (k - 1)) with k by lia.
    - lia. }
  cbn [fst snd exit_status files calls logs].
  replace (S (k - 1)) with k by lia.
  by rewrite <- !(assoc_L (++)).
Qed.

Lemma page_failure_exits_7_witness :
  let env := failing_page [example_users; example_users] 2 in
  exit_status (script env configured 5 empty_world).1 = Some 7%Z ∧
  files (script env configured 5 empty_world).2 = ∅ ∧
  calls (script env configured 5 empty_world).2
  = [Gitlab_new (Some "https://gitlab.example"%string)
                (Some "glpat-token"%string); Gitlab_auth;
     Users_list 100 1; Users_list 100 2] ∧
  logs (script env configured 5 empty_world).2
  = [Log_connected; Log_fetching; Log_unexpected OtherException].
Proof.
  intros env.
  apply (page_failure_exits_7 env configured 5 empty_world 2 OtherException);
    try reflexivity.
  - lia.
  - intros p Hp. assert (p = 1) as -> by lia.
    by eexists _, _.
Defined.

(** ** Runs that reach the files *)

Lemma serves_source_of_batches env batches :
  users_page env = source_of_batches batches →
  Forall (λ b, b ≠ []) batches →
  serves env (batch_pages batches) (S (length batches)).
Proof.
  intros Hsrc Hne. split_and!.
  - intros p. rewrite Hsrc. by destruct p.
  - lia.
  - simpl. by rewrite lookup_ge_None_2.
  - intros [|i] Hp; [lia|]. simpl.
    destruct (lookup_lt_is_Some_2 batches i) as [b Hb]; [lia|].
    rewrite Hb. simpl. eapply Forall_lookup_1 in Hne; done.
Qed.

Lemma enumeration_run {A} env url token fuel w pages n (f : list user → M A) :
  auth_outcome env = None →
  serves env pages n →
  n ≤ fuel →
  (connect_gitlab env url token ≫= λ gl, get_users env gl fuel ≫= f) w
  = f (served pages n)
      (World (files w)
             (calls w ++ Gitlab_new url token :: Gitlab_auth
                      :: (Users_list 100 <$> seq 1 n))
             (logs w ++ [Log_connected; Log_fetching;
                         Log_total_users (length (served pages n))])).
Proof.
  intros Hauth (Hsrc & Hn & Hempty & Hfirst) Hfuel.
  erewrite bind_ok by (rewrite connect_gitlab_run, Hauth; reflexivity).
  erewrite bind_ok; last first.
  { unfold get_users. erewrite bind_ok by reflexivity.
    erewrite bind_ok; last first.
    { apply (get_users_loop_run env _ pages (n - 1) Hsrc).
      - intros i Hi. apply Hfirst. lia.
      - by replace (1 + (n - 1)) with n by lia.
      - lia. }
    reflexivity. }
  cbv zeta. cbn [files calls logs app]. unfold served.
  replace (S (n - 1)) with n by lia.
  by rewrite <- !(assoc_L (++)).
Qed.

Lemma extraction_run {A} env url token fuel w pages n (f : gset string → M A) :
  auth_outcome env = None →
  serves env pages n →
  n ≤ fuel →
  fs_ok env USERS_FILE →
  (connect_gitlab env url token ≫= λ gl,
     get_users env gl fuel ≫= λ users,
       extract_domains env users ≫= f) w
  = f (domain_set (served pages n))
      (World (<[USERS_FILE := users_text (served pages n)]> (files w))
             (calls w ++ Gitlab_new url token :: Gitlab_auth
                      :: (Users_list 100 <$> seq 1 n))
             (logs w ++ [Log_connected; Log_fetching;
                         Log_total_users (length (served pages n));
                         Log_skipped (count_falsy (served pages n))])).
Proof.
  intros Hauth Hserves Hfuel Hfs.
  rewrite (enumeration_run env url token fuel w pages n) by done.
  erewrite bind_ok by by apply extract_domains_run.
  cbn [files calls logs]. by rewrite <- !(assoc_L (++)).
Qed.

Lemma sorted_listing_sorted domains : sorted_listing domains (sorted domains).
Proof.
  split; [apply sorted_strictly_ascending|].
  intros x. apply elem_of_sorted.
Qed.

Lemma StronglySorted_str_lt_NoDup (l : list string) :
  StronglySorted str_lt l → NoDup l.
Proof.
  induction 1 as [|x l Hl IH Hx]; [constructor|].
  constructor; [|done]. intros Hxl.
  eapply Forall_forall in Hx; [|done]. destruct Hx as [Hle Hnle]. done.
Qed.

Lemma sorted_listing_unique domains l :
  sorted_listing domains l → l = sorted domains.
Proof.
  intros [Hsorted Hin].
  apply (StronglySorted_unique_strong str_lt);
    [|done|apply sorted_strictly_ascending|].
  - intros x y _ _ [Hxy Hnyx] [Hyx _]. by destruct Hnyx.
  - apply NoDup_Permutation.
    + by apply StronglySorted_str_lt_NoDup.
    + apply NoDup_sorted.
    + intros x. by rewrite Hin, elem_of_sorted.
Qed.

Lemma length_sorted domains : length (sorted domains) = size domains.
Proof. apply Permutation_length, sorted_perm. Qed.

Lemma lines_text_users_text users : lines_text users = users_text users.
Proof. unfold lines_text. by rewrite users_text_lines. Qed.

Lemma string_take_prefix n s : prefix_of (string_take n s) s.
Proof.
  revert s. induction n as [|n IH]; intros s.
  - by exists s.
  - destruct s as [|c s]; [by exists EmptyString|].
    destruct (IH s) as [rest Hrest]. exists rest.
    cbn [string_take]. rewrite append_String. by f_equal.
Qed.

(** X9: a complete run.  With a configured endpoint and credential, a
    successful authentication, a source whose first empty page is [n] and
    two writable output files, the script exits with status 0 after the
    requests for the pages 1, ..., [n].  Whatever the two files held before,
    the per-user file then holds the lines ["<username> - <email>"] of the
    served users with a non-empty e-mail, in order, and the domains file
    holds, one per line in strictly ascending order, exactly the lower-cased
    hosts of the matching e-mails; the log reports the number of users, of
    skipped users and of domains. *)
Theorem complete_run_exits_0 env inv fuel w pages n :
  truthy (py_or (arg_gitlab_url inv) (env_GITLAB_URL inv)) = true →
  truthy (py_or (arg_token inv) (env_PRIVATE_TOKEN inv)) = true →
  auth_outcome env = None →
  serves env pages n →
  n ≤ fuel →
  fs_ok env USERS_FILE →
  fs_ok env DOMAINS_FILE →
  ∃ l,
    sorted_listing (Spec.domains (served pages n)) l ∧
    exit_status (script env inv fuel w).1 = Some 0%Z ∧
    files (script env inv fuel w).2
    = <[DOMAINS_FILE := join nl l +:+ nl]>
        (<[USERS_FILE := lines_text (served pages n)]> (files w)) ∧
    calls (script env inv fuel w).2
    = calls w ++ Gitlab_new (py_or (arg_gitlab_url inv) (env_GITLAB_URL inv))
                            (py_or (arg_token inv) (env_PRIVATE_TOKEN inv))
                 :: Gitlab_auth :: (Users_list 100 <$> seq 1 n) ∧
    logs (script env inv fuel w).2
    = logs w ++ [Log_connected; Log_fetching;
                 Log_total_users (length (served pages n));
                 Log_skipped (count_falsy (served pages n));
                 Log_unique_domains (length l);
                 Log_domains_saved; Log_users_saved; Log_completed].
Proof.
  intros Hurl Htoken Hauth Hserves Hfuel Husers Hdomains.
  exists (sorted (domain_set (served pages n))).
  split; [rewrite spec_domains_domain_set; apply sorted_listing_sorted|].
  rewrite script_configured by done. unfold main.
  erewrite try_except_ok; last first.
  { rewrite (extraction_run env _ _ fuel w pages n) by done.
    erewrite bind_ok by by apply save_domains_run.
    reflexivity. }
  cbn [fst snd exit_status files calls logs].
  rewrite lines_text_users_text, length_sorted, <- !(assoc_L (++)).
  done.
Qed.

Lemma complete_run_exits_0_witness :
  let env := calm [anonymous :: example_users] in
  let r := script env configured 2 empty_world in
  exit_status r.1 = Some 0%Z ∧
  files r.2 !! USERS_FILE
  = Some ("a - a@Example.com" +:+ nl +:+ "b - b@EXAMPLE.COM" +:+ nl
          +:+ "c - c@other.org" +:+ nl) ∧
  files r.2 !! DOMAINS_FILE
  = Some ("example.com" +:+ nl +:+ "other.org" +:+ nl) ∧
  length (calls r.2) = 4.
Proof.
  intros env r.
  destruct (complete_run_exits_0 env configured 2 empty_world
              (batch_pages [anonymous :: example_users]) 2)
    as (l & [Hsorted Hin] & Hexit & Hfiles & Hcalls & _); try reflexivity.
  { apply serves_source_of_batches; [reflexivity|].
    apply Forall_cons. split; [discriminate|apply Forall_nil_2]. }
  { apply fs_ok_calm. }
  { apply fs_ok_calm. }
  fold r in Hexit, Hfiles, Hcalls.
  assert (l = ["example.com"; "other.org"]%string) as ->.
  { rewrite (sorted_listing_unique _ l (conj Hsorted Hin)).
    rewrite spec_domains_domain_set.
    change (served _ _) with (anonymous :: example_users).
    change (domain_set (anonymous :: example_users))
      with (domain_set example_users).
    apply sorted_example. }
  split; [exact Hexit|]. split; [|split].
  - rewrite Hfiles. reflexivity.
  - rewrite Hfiles. reflexivity.
  - rewrite Hcalls. reflexivity.
Defined.

(** X10: when the per-user file cannot be opened, [extract_domains] has no
    handler of its own: the script exits with status 7 (not 6), no skip
    counter is logged, and no file is touched, the domains file in
    particular. *)
Theorem users_file_open_failure_exits_7 env inv fuel w pages n e :
  truthy (py_or (arg_gitlab_url inv) (env_GITLAB_URL inv)) = true →
  truthy (py_or (arg_token inv) (env_PRIVATE_TOKEN inv)) = true →
  auth_outcome env = None →
  serves env pages n →
  n ≤ fuel →
  open_outcome env USERS_FILE = Some e →
  isinstance_Exception e = true →
  exit_status (script env inv fuel w).1 = Some 7%Z ∧
  files (script env inv fuel w).2 = files w ∧
  logs (script env inv fuel w).2
  = logs w ++ [Log_connected; Log_fetching;
               Log_total_users (length (served pages n)); Log_unexpected e].
Proof.
  intros Hurl Htoken Hauth Hserves Hfuel Hopen He.
  rewrite script_configured by done.
  erewrite main_caught; [| |exact He]; last first.
  { rewrite (enumeration_run env _ _ fuel w pages n) by done.
    apply bind_raise. unfold extract_domains.
    apply bind_raise, bind_raise. unfold open_w. by rewrite Hopen. }
  cbn [fst snd exit_status files calls logs].
  by rewrite <- !(assoc_L (++)).
Qed.

Lemma users_file_open_failure_exits_7_witness :
  let env := locked_users_file [example_users] in
  exit_status (script env configured 2 empty_world).1 = Some 7%Z ∧
  files (script env configured 2 empty_world).2 = ∅ ∧
  logs (script env configured 2 empty_world).2
  = [Log_connected; Log_fetching; Log_total_users 3; Log_unexpected IOError].
Proof.
  intros env.
  apply (users_file_open_failure_exits_7 env configured 2 empty_world
           (batch_pages [example_users]) 2 IOError); try reflexivity.
  apply serves_source_of_batches; [reflexivity|].
  apply Forall_cons. split; [discriminate|apply Forall_nil_2].
Defined.

Lemma write_users_fails env l1 u l2 em e accepted :
  truthy_email u = Some em →
  ∀ k w old,
    files w !! USERS_FILE = Some old →
    (∀ p v s e',
       l1 = p ++ v :: s → truthy_email v = Some e' →
       write_outcome env USERS_FILE (old +:+ users_text p) (user_line v e')
       = None) →
    write_outcome env USERS_FILE (old +:+ users_text l1) (user_line u em)
    = Some (e, accepted) →
    write_users env (l1 ++ u :: l2) k w
    = (Raise e,
       World (<[USERS_FILE
                := string_take accepted
                     (old +:+ users_text l1 +:+ user_line u em)]> (files w))
             (calls w) (logs w)).
Proof.
  intros Hu. induction l1 as [|v l1 IH]; intros k w old Hold Hok Hfail.
  - cbn [app write_users users_text] in *. rewrite Hu.
    rewrite append_empty_r in Hfail. rewrite append_empty_l.
    erewrite bind_raise; [reflexivity|].
    unfold write. rewrite Hold. simpl. by rewrite Hfail.
  - cbn [app write_users users_text] in *.
    destruct (truthy_email v) as [e'|] eqn:Hv.
    + specialize (Hok [] v l1 e' eq_refl Hv) as Hfirst.
      simpl in Hfirst. rewrite append_empty_r in Hfirst.
      erewrite bind_ok; last first.
      { unfold write. rewrite Hold. simpl. by rewrite Hfirst. }
      rewrite <- append_assoc in Hfail.
      erewrite IH; [|simpl; apply lookup_insert_eq| |exact Hfail].
      * simpl. by rewrite insert_insert_eq, !append_assoc.
      * intros p v' s e'' -> Hv'. rewrite append_assoc.
        specialize (Hok (v :: p) v' s e'' eq_refl Hv').
        simpl in Hok. by rewrite Hv in Hok.
    + apply IH; [done| |done].
      intros p v' s e'' -> Hv'.
      specialize (Hok (v :: p) v' s e'' eq_refl Hv').
      simpl in Hok. by rewrite Hv in Hok.
Qed.

Lemma email_nonempty_line_of u :
  email_nonempty u →
  ∃ em, truthy_email u = Some em ∧ line_of u = user_line u em.
Proof.
  intros (em & Hem & Hne). exists em. split; [by apply truthy_email_Some|].
  unfold line_of, user_line. by rewrite Hem.
Qed.

Lemma lines_text_snoc l u :
  email_nonempty u → lines_text (l ++ [u]) = lines_text l +:+ line_of u.
Proof.
  intros (em & Ht & Hline)%email_nonempty_line_of.
  rewrite !lines_text_users_text, users_text_app. simpl.
  by rewrite Ht, Hline, append_empty_r.
Qed.

(** X11: when a write to the per-user file fails in the middle of the loop,
    nothing is rolled back and no handler of [extract_domains] steps in:
    the script exits with status 7, the per-user file is left with the part
    the system accepted, which is a beginning of the lines of the users up
    to the one whose write failed, and the domains file is not touched,
    although the domain set was computed before the first line was
    written. *)
Theorem users_file_write_failure_leaves_accepted_prefix
    env inv fuel w pages n l1 u l2 e accepted :
  truthy (py_or (arg_gitlab_url inv) (env_GITLAB_URL inv)) = true →
  truthy (py_or (arg_token inv) (env_PRIVATE_TOKEN inv)) = true →
  auth_outcome env = None →
  serves env pages n →
  n ≤ fuel →
  open_outcome env USERS_FILE = None →
  served pages n = l1 ++ u :: l2 →
  email_nonempty u →
  (∀ p v s,
     l1 = p ++ v :: s → email_nonempty v →
     write_outcome env USERS_FILE (lines_text p) (line_of v) = None) →
  write_outcome env USERS_FILE (lines_text l1) (line_of u)
  = Some (e, accepted) →
  isinstance_Exception e = true →
  exit_status (script env inv fuel w).1 = Some 7%Z ∧
  files (script env inv fuel w).2
  = <[USERS_FILE := string_take accepted (lines_text l1 +:+ line_of u)]>
      (files w) ∧
  prefix_of (string_take accepted (lines_text l1 +:+ line_of u))
            (lines_text (l1 ++ [u])) ∧
  files (script env inv fuel w).2 !! DOMAINS_FILE = files w !! DOMAINS_FILE.
Proof.
  intros Hurl Htoken Hauth Hserves Hfuel Hopen Hsplit Hu Hok Hfail He.
  destruct (email_nonempty_line_of u Hu) as (em & Ht & Hline).
  rewrite script_configured by done.
  erewrite main_caught; [| |exact He]; last first.
  { rewrite (enumeration_run env _ _ fuel w pages n) by done.
    apply bind_raise. unfold extract_domains. apply bind_raise.
    erewrite bind_ok by by apply open_w_run.
    apply bind_raise. rewrite Hsplit.
    apply (write_users_fails env l1 u l2 em e accepted Ht _ _ EmptyString).
    - simpl. apply lookup_insert_eq.
    - intros p v s e' Hl1 Hv. rewrite append_empty_l.
      assert (email_nonempty v) as Hv' by (apply truthy_email_nonempty; eauto).
      destruct (email_nonempty_line_of v Hv') as (em' & Ht' & Hline').
      rewrite <- lines_text_users_text. simplify_eq. rewrite <- Hline'.
      by eapply Hok.
    - rewrite append_empty_l, <- lines_text_users_text, <- Hline. exact Hfail. }
  cbn [fst snd exit_status files calls logs].
  rewrite insert_insert_eq, append_empty_l, <- lines_text_users_text, <- Hline.
  split_and!; [done..| |by rewrite lookup_insert_ne].
  rewrite lines_text_snoc by done. apply string_take_prefix.
Qed.

Lemma users_file_write_failure_leaves_accepted_prefix_witness :
  let first := User "a" (Some "a@x.org"%string) in
  let second := User "b" (Some "b@y.org"%string) in
  let env := users_file_full [[first; second]] ("a - a@x.org" +:+ nl) 15 in
  exit_status (script env configured 2 empty_world).1 = Some 7%Z ∧
  files (script env configured 2 empty_world).2
  = {[ USERS_FILE := "a - a@x.org" +:+ nl +:+ "b -" ]}.
Proof.
  intros first second env.
  destruct (users_file_write_failure_leaves_accepted_prefix env configured 2
              empty_world (batch_pages [[first; second]]) 2
              [first] second [] IOError 15)
    as (Hexit & Hfiles & _); try reflexivity.
  { apply serves_source_of_batches; [reflexivity|].
    apply Forall_cons. split; [discriminate|apply Forall_nil_2]. }
  { exists "b@y.org"%string. split; [reflexivity|discriminate]. }
  { intros [|? [|? ?]] v s Hsplit _; [reflexivity|discriminate..]. }
  split; [exact Hexit|exact Hfiles].
Defined.

(** X12: when the domains file cannot be opened ([IOError] or a subclass),
    the script exits with status 6 after the per-user file has been written
    completely; the domains file is left as it was, and the log has the
    skip counter and the write error but no domain count. *)
Theorem domains_file_open_failure_exits_6 env inv fuel w pages n e :
  truthy (py_or (arg_gitlab_url inv) (env_GITLAB_URL inv)) = true →
  truthy (py_or (arg_token inv) (env_PRIVATE_TOKEN inv)) = true →
  auth_outcome env = None →
  serves env pages n →
  n ≤ fuel →
  fs_ok env USERS_FILE →
  open_outcome env DOMAINS_FILE = Some e →
  isinstance_IOError e = true →
  exit_status (script env inv fuel w).1 = Some 6%Z ∧
  files (script env inv fuel w).2
  = <[USERS_FILE := users_text (served pages n)]> (files w) ∧
  files (script env inv fuel w).2 !! DOMAINS_FILE = files w !! DOMAINS_FILE ∧
  logs (script env inv fuel w).2
  = logs w ++ [Log_connected; Log_fetching;
               Log_total_users (length (served pages n));
               Log_skipped (count_falsy (served pages n)); Log_write_error].
Proof.
  intros Hurl Htoken Hauth Hserves Hfuel Hfs Hopen He.
  rewrite script_configured by done.
  erewrite main_passed; last first.
  { rewrite (extraction_run env _ _ fuel w pages n) by done.
    apply bind_raise. by eapply save_domains_open_fails. }
  cbn [fst snd exit_status files calls logs].
  split_and!; [done..| |by rewrite <- !(assoc_L (++))].
  by rewrite lookup_insert_ne.
Qed.

Lemma domains_file_open_failure_exits_6_witness :
  let env := read_only_domains [example_users] in
  let w := World {[ DOMAINS_FILE := "old.example"%string ]} [] [] in
  exit_status (script env configured 2 w).1 = Some 6%Z ∧
  files (script env configured 2 w).2 !! DOMAINS_FILE
  = Some "old.example"%string.
Proof.
  intros env w.
  destruct (domains_file_open_failure_exits_6 env configured 2 w
              (batch_pages [example_users]) 2 IOError)
    as (Hexit & _ & Hdomains & _); try reflexivity.
  { apply serves_source_of_batches; [reflexivity|].
    apply Forall_cons. split; [discriminate|apply Forall_nil_2]. }
  { by split. }
  split; [exact Hexit|]. rewrite Hdomains. reflexivity.
Defined.



(** X14: [save_domains] turns only [IOError] and its subclasses into status
    6: when opening the domains file fails with another exception, the
    catch-all of [main] logs it and the script exits with status 7; the
    per-user file is complete and the domains file is left as it was. *)
Theorem domains_file_other_failure_exits_7 env inv fuel w pages n e :
  truthy (py_or (arg_gitlab_url inv) (env_GITLAB_URL inv)) = true →
  truthy (py_or (arg_token inv) (env_PRIVATE_TOKEN inv)) = true →
  auth_outcome env = None →
  serves env pages n →
  n ≤ fuel →
  fs_ok env USERS_FILE →
  open_outcome env DOMAINS_FILE = Some e →
  isinstance_IOError e = false →
  isinstance_Exception e = true →
  exit_status (script env inv fuel w).1 = Some 7%Z ∧
  files (script env inv fuel w).2
  = <[USERS_FILE := users_text (served pages n)]> (files w) ∧
  logs (script env inv fuel w).2
  = logs w ++ [Log_connected; Log_fetching;
               Log_total_users (length (served pages n));
               Log_skipped (count_falsy (served pages n)); Log_unexpected e].
Proof.
  intros Hurl Htoken Hauth Hserves Hfuel Hfs Hopen Hio He.
  rewrite script_configured by done.
  erewrite main_caught; [| |exact He]; last first.
  { rewrite (extraction_run env _ _ fuel w pages n) by done.
    apply bind_raise. unfold save_domains. apply bind_raise.
    apply try_except_passed; [|by rewrite Hio].
    apply bind_raise. unfold open_w. by rewrite Hopen. }
  cbn [fst snd exit_status files calls logs].
  by rewrite <- !(assoc_L (++)).
Qed.

Lemma domains_file_other_failure_exits_7_witness :
  let env := odd_domains_failure [example_users] in
  exit_status (script env configured 2 empty_world).1 = Some 7%Z ∧
  logs (script env configured 2 empty_world).2
  = [Log_connected; Log_fetching; Log_total_users 3; Log_skipped 0;
     Log_unexpected OtherException].
Proof.
  intros env.
  destruct (domains_file_other_failure_exits_7 env configured 2 empty_world
              (batch_pages [example_users]) 2 OtherException)
    as (Hexit & _ & Hlogs); try reflexivity.
  { apply serves_source_of_batches; [reflexivity|].
    apply Forall_cons. split; [discriminate|apply Forall_nil_2]. }
  { by split. }
  split; [exact Hexit|exact Hlogs].
Defined.

(** ** The exit statuses *)

Lemma exits_within_bind {A B} S (m : M A) (f : A → M B) :
  exits_within S m → (∀ a, exits_within S (f a)) → exits_within S (m ≫= f).
Proof.
  intros Hm Hf w e w'. unfold mbind, M_bind.
  destruct (m w) as [[a|e1|] w1] eqn:Hmw.
  - apply Hf.
  - intros [= <- <-]. by eapply Hm.
  - done.
Qed.

Lemma exits_within_mono {A} (S S' : Z → Prop) (m : M A) :
  (∀ c, S c → S' c) → exits_within S m → exits_within S' m.
Proof.
  intros HS Hm w e w' Hrun.
  destruct (Hm w e w' Hrun) as [He|(c & -> & Hc)]; [by left|].
  right. exists c. auto.
Qed.

Lemma exits_within_log S r : exits_within S (log r).
Proof. by intros w e w'. Qed.

Lemma exits_within_ret {A} S (a : A) : exits_within S (mret a : M A).
Proof. by intros w e w'. Qed.

Lemma exits_within_open_w env S path :
  raises_exceptions_only env → exits_within S (open_w env path).
Proof.
  intros (_ & _ & Hopen & _) w e w'. unfold open_w.
  destruct (open_outcome env path) as [e1|] eqn:He1; [|done].
  intros [= <- <-]. left. by eapply Hopen.
Qed.

Lemma exits_within_write env S path data :
  raises_exceptions_only env → exits_within S (write env path data).
Proof.
  intros (_ & _ & _ & Hwrite) w e w'. unfold write. cbv zeta.
  destruct (write_outcome env path _ _) as [[e1 n]|] eqn:He1; [|done].
  intros [= <- <-]. left. by eapply Hwrite.
Qed.

Lemma exits_within_users_list env S gl per_page page :
  raises_exceptions_only env →
  exits_within S (users_list env gl per_page page).
Proof.
  intros (_ & Hpage & _) w e w'. rewrite users_list_result.
  destruct (users_page env per_page page) as [batch|e1] eqn:He1; [done|].
  intros [= <- <-]. left. by eapply Hpage.
Qed.

Lemma exits_within_connect_gitlab env url token :
  raises_exceptions_only env →
  exits_within (λ c, c = 2%Z ∨ c = 3%Z) (connect_gitlab env url token).
Proof.
  intros (Hauth & _) w e w'. rewrite connect_gitlab_run. cbv zeta.
  destruct (auth_outcome env) as [e1|] eqn:He1; [|done].
  specialize (Hauth e1 eq_refl).
  destruct e1; intros [= <- <-]; first [by left | right; eexists; eauto].
Qed.

Lemma exits_within_get_users_loop env S gl fuel page acc :
  raises_exceptions_only env →
  exits_within S (get_users_loop env gl fuel page acc).
Proof.
  intros Henv. revert page acc.
  induction fuel as [|fuel IH]; intros page acc; [by intros w e w'|].
  cbn [get_users_loop].
  apply exits_within_bind; [by apply exits_within_users_list|].
  intros [|u batch]; [apply exits_within_ret|apply IH].
Qed.

Lemma exits_within_get_users env S gl fuel :
  raises_exceptions_only env → exits_within S (get_users env gl fuel).
Proof.
  intros Henv. unfold get_users.
  apply exits_within_bind; [apply exits_within_log|]. intros _.
  apply exits_within_bind; [by apply exits_within_get_users_loop|].
  intros users. apply exits_within_bind; [apply exits_within_log|].
  intros _. apply exits_within_ret.
Qed.

Lemma exits_within_write_users env S users k :
  raises_exceptions_only env → exits_within S (write_users env users k).
Proof.
  intros Henv. revert k. induction users as [|u users IH]; intros k.
  - apply exits_within_ret.
  - cbn [write_users]. destruct (truthy_email u); [|apply IH].
    apply exits_within_bind; [by apply exits_within_write|].
    intros _. apply IH.
Qed.

Lemma exits_within_extract_domains env S users :
  raises_exceptions_only env → exits_within S (extract_domains env users).
Proof.
  intros Henv. unfold extract_domains. apply exits_within_bind.
  - apply exits_within_bind; [by apply exits_within_open_w|]. intros _.
    apply exits_within_bind; [|intros k; apply exits_within_ret].
    by apply exits_within_write_users.
  - intros r. apply exits_within_bind; [apply exits_within_log|].
    intros _. apply exits_within_ret.
Qed.

Lemma exits_within_save_domains env domains :
  raises_exceptions_only env →
  exits_within (λ c, c = 6%Z) (save_domains env domains).
Proof.
  intros Henv. unfold save_domains. apply exits_within_bind.
  - intros w e w'. unfold try_except.
    destruct ((open_w env DOMAINS_FILE ≫= _) w) as [[[]|e1|] w1] eqn:Hbody;
      [done| |done].
    destruct (isinstance_IOError e1) eqn:Hio.
    + intros [= <- <-]. right. by exists 6%Z.
    + intros [= <- <-].
      eapply (exits_within_bind (λ c, c = 6%Z)); [| |exact Hbody].
      * by apply exits_within_open_w.
      * intros ?. by apply exits_within_write.
  - intros _. apply exits_within_bind; [apply exits_within_log|].
    intros _. apply exits_within_log.
Qed.

(** X15: the exit statuses of the script.  Whatever the outside does, a
    run never ends with an exception other than [SystemExit]; when the
    outside raises instances of [Exception] only, a run that ends returns
    normally or exits with one of the codes 1, 2, 3, 6 and 7. *)
Theorem script_exit_statuses env inv fuel w :
  (∀ e, (script env inv fuel w).1 = Raise e → isinstance_Exception e = false) ∧
  (raises_exceptions_only env →
   ∀ e, (script env inv fuel w).1 = Raise e →
        ∃ c, e = SystemExit c ∧
             (c = 1 ∨ c = 2 ∨ c = 3 ∨ c = 6 ∨ c = 7)%Z).
Proof.
  unfold script.
  destruct (negb _ || negb _).
  { split.
    - by intros e [= <-].
    - intros _ e [= <-]. exists 1%Z. auto. }
  set (url := py_or _ _). set (token := py_or _ _). unfold main, try_except.
  destruct ((connect_gitlab env url token ≫= _) w) as [[[]|e1|] w1] eqn:Hbody.
  - split; [done|]. by intros _ e.
  - destruct (isinstance_Exception e1) eqn:He1.
    + split.
      * by intros e [= <-].
      * intros _ e [= <-]. exists 7%Z. auto 10.
    + split; [by intros e [= <-]|].
      intros Henv e [= <-].
      assert (exits_within (λ c, c = 2 ∨ c = 3 ∨ c = 6)%Z
                (connect_gitlab env url token ≫= λ gl,
                   get_users env gl fuel ≫= λ users,
                     extract_domains env users ≫= λ unique_domains,
                       save_domains env unique_domains ≫= λ _,
                         log Log_users_saved ≫= λ _, log Log_completed))
        as Hwithin.
      { apply exits_within_bind.
        { eapply exits_within_mono; [|by apply exits_within_connect_gitlab].
          intros c [-> | ->]; auto. }
        intros gl. apply exits_within_bind.
        { by apply exits_within_get_users. }
        intros users. apply exits_within_bind.
        { by apply exits_within_extract_domains. }
        intros d. apply exits_within_bind.
        { eapply exits_within_mono; [|by apply exits_within_save_domains].
          intros c ->; auto. }
        intros _. apply exits_within_bind; [apply exits_within_log|].
        intros _. apply exits_within_log. }
      destruct (Hwithin w e1 w1 Hbody) as [He|(c & -> & Hc)]; [congruence|].
      exists c. split; [done|]. naive_solver.
  - split; [done|]. by intros _ e.
Qed.

Lemma raises_exceptions_only_calm batches : raises_exceptions_only (calm batches).
Proof.
  split_and!; [done| |done..].
  intros per_page [|i] e; discriminate.
Qed.

Lemma script_exit_statuses_witness :
  raises_exceptions_only rejecting ∧
  ∃ c, (script rejecting configured 1 empty_world).1 = Raise (SystemExit c) ∧
       (c = 1 ∨ c = 2 ∨ c = 3 ∨ c = 6 ∨ c = 7)%Z.
Proof.
  assert (raises_exceptions_only rejecting) as Henv.
  { split_and!; [by intros e [= <-]| |done..].
    intros per_page [|i] e; discriminate. }
  split; [exact Henv|].
  destruct (script_exit_statuses rejecting configured 1 empty_world)
    as [_ Hcodes].
  destruct (Hcodes Henv (SystemExit 2) eq_refl) as (c & Hc & Hcase).
  exists c. split; [|exact Hcase]. by rewrite <- Hc.
Defined.

(** ** The domain set *)

Lemma extract_domains_result env users w d w' :
  extract_domains env users w = (Ok d, w') → d = domain_set users.
Proof.
  unfold extract_domains, mbind, M_bind.
  destruct (open_w env USERS_FILE w) as [[[]|e|] w1]; [|done..].
  destruct (write_users env users 0 w1) as [[k|e|] w2]; [|done..].
  simpl. by intros [= <- _].
Qed.

Lemma in_class_lower_domain_char c :
  Regex.in_class c = true → is_domain_char (lower_ascii c) = true.
Proof.
  destruct c as [[] [] [] [] [] [] [] []]; by vm_compute.
Qed.

Lemma all_class_lower_domain_chars h : all_class h → domain_chars (lower h).
Proof.
  induction h as [|c h IH]; [done|].
  intros [Hc Hh]. split; [by apply in_class_lower_domain_char|by apply IH].
Qed.

(** X16: every domain [extract_domains] returns is a non-empty string of
    lower-case letters, digits, dots and hyphens: no upper-case letter, no
    [@] and no white space reaches the domains file. *)
Theorem returned_domains_are_lower_case_hosts env users w d w' x :
  extract_domains env users w = (Ok d, w') →
  x ∈ d →
  x ≠ EmptyString ∧ domain_chars x.
Proof.
  intros ->%extract_domains_result
    (u & _ & (e & h & _ & _ & Hc & ->)%domain_of_Some)%elem_of_domain_set.
  destruct Hc as (pre & rest & _ & Hne & Hall & _).
  split; [by destruct h|by apply all_class_lower_domain_chars].
Qed.

Lemma returned_domains_are_lower_case_hosts_witness :
  "example.com"%string ≠ EmptyString ∧ domain_chars "example.com".
Proof.
  apply (returned_domains_are_lower_case_hosts (calm []) example_users
           empty_world (domain_set example_users)
           (extract_domains (calm []) example_users empty_world).2).
  - by apply extract_domains_run, fs_ok_calm.
  - apply elem_of_domain_set. exists (User "a" (Some "a@Example.com"%string)).
    split; [apply list_elem_of_here|reflexivity].
Defined.

Lemma omap_length_filter users :
  length (omap domain_of users) ≤ length (filter email_nonempty users).
Proof.
  induction users as [|u users IH]; [done|].
  rewrite filter_cons.
  change (omap domain_of (u :: users))
    with (match domain_of u with
          | Some y => y :: omap domain_of users
          | None => omap domain_of users
          end).
  destruct (domain_of u) as [x|] eqn:Hd.
  - apply domain_of_Some in Hd as (e & h & He & Hne & _).
    rewrite decide_True by (by exists e). simpl. lia.
  - destruct (decide (email_nonempty u)); simpl; lia.
Qed.

Lemma size_list_to_set_le (l : list string) :
  size (list_to_set l : gset string) ≤ length l.
Proof.
  induction l as [|x l IH].
  - change (size (∅ : gset string) ≤ 0). by rewrite size_empty.
  - change (size ({[x]} ∪ (list_to_set l : gset string)) ≤ S (length l)).
    rewrite size_union_alt, size_singleton.
    assert (size ((list_to_set l : gset string) ∖ {[x]})
            ≤ size (list_to_set l : gset string))
      by (apply subseteq_size; set_solver).
    lia.
Qed.

(** X17: the accounting of [extract_domains]: every user is either written
    to the per-user file or counted as skipped, and the number of domains
    returned is at most the number of users written. *)
Theorem extract_domains_accounts_for_every_user env users w :
  fs_ok env USERS_FILE →
  ∃ d w',
    extract_domains env users w = (Ok d, w') ∧
    files w' !! USERS_FILE
    = Some (String.concat EmptyString
              (line_of <$> filter email_nonempty users)) ∧
    logs w' = logs w ++ [Log_skipped (count_falsy users)] ∧
    length (filter email_nonempty users) + count_falsy users = length users ∧
    size d ≤ length (filter email_nonempty users).
Proof.
  intros Hfs. eexists _, _. split; [by apply extract_domains_run|].
  split; [simpl; by rewrite lookup_insert_eq, users_text_lines|].
  split; [done|]. split.
  - unfold count_falsy. clear.
    induction users as [|u users IH]; [done|].
    rewrite !filter_cons.
    destruct (decide (email_nonempty u)).
    + rewrite decide_False by auto. simpl. lia.
    + rewrite decide_True by auto. simpl. lia.
  - rewrite domain_set_list. etrans; [apply size_list_to_set_le|].
    apply omap_length_filter.
Qed.

Lemma extract_domains_accounts_for_every_user_witness :
  let users := anonymous :: example_users in
  fs_ok (calm []) USERS_FILE ∧
  ∃ d w',
    extract_domains (calm []) users empty_world = (Ok d, w') ∧
    logs w' = [Log_skipped 1] ∧
    size d ≤ 3.
Proof.
  intros users. split; [apply fs_ok_calm|].
  destruct (extract_domains_accounts_for_every_user (calm []) users empty_world
              (fs_ok_calm _ _)) as (d & w' & Hrun & _ & Hlogs & _ & Hsize).
  exists d, w'. split; [exact Hrun|]. split; [exact Hlogs|exact Hsize].
Defined.

Lemma in_class_lower_ascii c : Regex.in_class (lower_ascii c) = Regex.in_class c.
Proof. destruct c as [[] [] [] [] [] [] [] []]; by vm_compute. Qed.

Lemma is_at_lower_ascii c : Regex.is_at (lower_ascii c) = Regex.is_at c.
Proof. destruct c as [[] [] [] [] [] [] [] []]; by vm_compute. Qed.

Lemma span_class_lower s : Regex.span_class (lower s) = lower (Regex.span_class s).
Proof.
  induction s as [|c s IH]; [done|].
  cbn [lower Regex.span_class]. rewrite in_class_lower_ascii.
  destruct (Regex.in_class c); [|done]. cbn [lower]. by rewrite IH.
Qed.

Lemma match_here_lower s :
  Regex.match_here (lower s) = lower <$> Regex.match_here s.
Proof.
  destruct s as [|c s]; [done|].
  cbn [lower Regex.match_here]. rewrite is_at_lower_ascii, span_class_lower.
  destruct (Regex.is_at c); [|done].
  by destruct (Regex.span_class s).
Qed.

Lemma search_lower s : Regex.search (lower s) = lower <$> Regex.search s.
Proof.
  induction s as [|c s IH]; [done|].
  rewrite (search_unfold (lower (String c s))), (search_unfold (String c s)).
  rewrite match_here_lower.
  destruct (Regex.match_here (String c s)); [done|].
  cbn [lower fmap option_fmap option_map]. exact IH.
Qed.

Lemma lower_empty_iff s : lower s = EmptyString ↔ s = EmptyString.
Proof. by destruct s. Qed.

Lemma domain_of_lower_search u :
  domain_of u = truthy_email u ≫= λ e, Regex.search (lower e).
Proof.
  unfold domain_of. destruct (truthy_email u) as [e|]; [|done].
  simpl. rewrite search_lower. by destruct (Regex.search e).
Qed.

Lemma domain_of_same_case u1 u2 :
  lower <$> email u1 = lower <$> email u2 → domain_of u1 = domain_of u2.
Proof.
  intros Hcase. rewrite !domain_of_lower_search. unfold truthy_email.
  destruct (email u1) as [e1|], (email u2) as [e2|];
    try discriminate Hcase; [|done].
  injection Hcase as Hlower.
  destruct e1 as [|c1 e1], e2 as [|c2 e2]; try discriminate Hlower; [done|].
  change (Regex.search (lower (String c1 e1))
          = Regex.search (lower (String c2 e2))).
  by rewrite Hlower.
Qed.

(** X18: the letter case of an e-mail does not matter: two user lists whose
    e-mails agree up to the case of the letters [A]-[Z] give the same
    domain set, whatever the usernames are. *)
Theorem domains_ignore_letter_case env users1 users2 w :
  fs_ok env USERS_FILE →
  Forall2 (λ u1 u2, lower <$> email u1 = lower <$> email u2) users1 users2 →
  ∃ d w1 w2,
    extract_domains env users1 w = (Ok d, w1) ∧
    extract_domains env users2 w = (Ok d, w2).
Proof.
  intros Hfs Hcase. eexists _, _, _.
  split; [by apply extract_domains_run|].
  rewrite extract_domains_run by done. do 2 f_equal.
  rewrite !domain_set_list. f_equal.
  induction Hcase as [|u1 u2 l1 l2 Hu _ IH]; [done|].
  cbn [omap list_omap]. rewrite (domain_of_same_case u1 u2 Hu).
  fold (omap domain_of l1). fold (omap domain_of l2). by rewrite IH.
Qed.

Lemma domains_ignore_letter_case_witness :
  let users1 := [User "a" (Some "Ann@Example.COM"%string)] in
  let users2 := [User "b" (Some "ann@EXAMPLE.com"%string)] in
  fs_ok (calm []) USERS_FILE ∧
  ∃ d w1 w2,
    extract_domains (calm []) users1 empty_world = (Ok d, w1) ∧
    extract_domains (calm []) users2 empty_world = (Ok d, w2).
Proof.
  intros users1 users2. split; [apply fs_ok_calm|].
  apply (domains_ignore_letter_case (calm []) users1 users2 empty_world).
  - apply fs_ok_calm.
  - constructor; [reflexivity|constructor].
Defined.

(** X19: [extract_domains] on a concatenation: the domain set is the union
    of the sets of the two parts, the per-user file is the text of the
    first part followed by the text of the second, and the skip counter is
    the sum of the two counters. *)
Theorem extract_domains_of_concatenation env users1 users2 w :
  fs_ok env USERS_FILE →
  ∃ d1 w1 d2 w2 w',
    extract_domains env users1 w = (Ok d1, w1) ∧
    extract_domains env users2 w = (Ok d2, w2) ∧
    extract_domains env (users1 ++ users2) w = (Ok (d1 ∪ d2), w') ∧
    (∃ t1 t2,
       files w1 !! USERS_FILE = Some t1 ∧
       files w2 !! USERS_FILE = Some t2 ∧
       files w' !! USERS_FILE = Some (t1 +:+ t2)) ∧
    logs w' = logs w
              ++ [Log_skipped (count_falsy users1 + count_falsy users2)].
Proof.
  intros Hfs. eexists _, _, _, _, _.
  split; [by apply extract_domains_run|].
  split; [by apply extract_domains_run|].
  split; [by rewrite extract_domains_run, domain_set_app|].
  split.
  - eexists _, _. simpl. rewrite !lookup_insert_eq, users_text_app. done.
  - simpl. by rewrite count_falsy_app.
Qed.

Lemma extract_domains_of_concatenation_witness :
  let users1 := [anonymous; User "a" (Some "a@x.org"%string)] in
  let users2 := [User "b" (Some "b@y.org"%string); anonymous] in
  fs_ok (calm []) USERS_FILE ∧
  ∃ d1 w1 d2 w2 w',
    extract_domains (calm []) users1 empty_world = (Ok d1, w1) ∧
    extract_domains (calm []) users2 empty_world = (Ok d2, w2) ∧
    extract_domains (calm []) (users1 ++ users2) empty_world
    = (Ok (d1 ∪ d2), w') ∧
    logs w' = [Log_skipped 2].
Proof.
  intros users1 users2. split; [apply fs_ok_calm|].
  destruct (extract_domains_of_concatenation (calm []) users1 users2
              empty_world (fs_ok_calm _ _))
    as (d1 & w1 & d2 & w2 & w' & H1 & H2 & H12 & _ & Hlogs).
  exists d1, w1, d2, w2, w'.
  split; [exact H1|]. split; [exact H2|]. split; [exact H12|exact Hlogs].
Defined.

(** ** Reading the domains file back *)

(** X20: for a non-empty set whose elements contain no newline (every set
    [extract_domains] returns is such a set), reading the domains file back
    line by line gives the set again, and the number of lines is the number
    of domains that [save_domains] logs. *)
Theorem domains_file_reads_back env domains w :
  fs_ok env DOMAINS_FILE →
  set_Forall nl_free domains →
  domains ≠ ∅ →
  ∃ w' content,
    save_domains env domains w = (Ok tt, w') ∧
    files w' !! DOMAINS_FILE = Some content ∧
    list_to_set (lines_of content) = domains ∧
    logs w' = logs w ++ [Log_unique_domains (length (lines_of content));
                         Log_domains_saved].
Proof.
  intros Hfs Hfree Hne. eexists _, _.
  split; [by apply save_domains_run|].
  split; [simpl; by rewrite lookup_insert_eq|].
  assert (lines_of (join nl (sorted domains) +:+ nl) = sorted domains) as ->.
  { assert (Forall nl_free (sorted domains)) as Hall.
    { apply Forall_forall. intros d Hd%elem_of_sorted. by apply Hfree. }
    destruct (sorted domains) as [|x l] eqn:Hs; [|by apply lines_of_join].
    exfalso. apply Hne. apply set_eq. intros d.
    rewrite <- elem_of_sorted, Hs. set_solver. }
  split.
  - apply set_eq. intros d. by rewrite elem_of_list_to_set, elem_of_sorted.
  - simpl. by rewrite sorted_perm.
Qed.

Lemma domains_file_reads_back_witness :
  fs_ok (calm []) DOMAINS_FILE ∧
  ∃ w' content,
    save_domains (calm []) (domain_set example_users) empty_world = (Ok tt, w') ∧
    files w' !! DOMAINS_FILE = Some content ∧
    list_to_set (lines_of content) = domain_set example_users ∧
    logs w' = [Log_unique_domains (length (lines_of content));
               Log_domains_saved].
Proof.
  split; [apply fs_ok_calm|].
  apply (domains_file_reads_back (calm []) (domain_set example_users)
           empty_world).
  - apply fs_ok_calm.
  - apply domain_set_nl_free.
  - intros Hempty. pose proof sorted_example as Hs.
    rewrite Hempty, sorted_empty in Hs. discriminate.
Defined.
